(** * cryptofeed: the BitMEX order-book engine and the normalisation registry

    A shallow embedding of [cryptofeed/standards.py] and of the book handler
    of [cryptofeed/exchange/bitmex.py], with the properties of the
    specification stated over it.

    Conventions.
    - A Python dict is a [gmap]; reading a missing key raises [KeyError].
    - A function that may raise returns a [result]; code that mutates the
      session and may raise lives in the monad [Bitmex.M], whose state
      survives an exception exactly as the mutated Python objects do.
    - [Decimal] values are canonical rationals ([Qc]): every finite decimal
      is one, and Python compares and hashes decimals by numeric value.
    - Python floats are IEEE binary64 numbers ([PrimFloat.float]). *)

From Stdlib Require Import ZArith QArith Qcanon Ascii String.
From Stdlib Require Import PrimFloat SpecFloat FloatOps.
From stdpp Require Import gmap strings list fin_maps.

#[local] Set Warnings "-inexact-float".

Local Open Scope Z_scope.
Local Open Scope string_scope.

(** ** Exceptions and results *)

Inductive exn : Type :=
  | KeyError
  | IndexError
  | TypeError
  | OverflowError
  | UnsupportedTradingPair (msg : string)
  | UnsupportedDataFeed (msg : string).

Inductive result (A : Type) : Type :=
  | Ok (a : A)
  | Raise (e : exn).
Arguments Ok {A} a.
Arguments Raise {A} e.

(** [d[k]] on a dict. *)
Definition getitem {K A} `{Countable K} (d : gmap K A) (k : K) : result A :=
  match d !! k with
  | Some a => Ok a
  | None => Raise KeyError
  end.

(** ** Constants of [cryptofeed.defines] *)

(** Modelled from the spec: [cryptofeed/defines.py] is imported by both
    source files but is not part of them.  Exchange ids and canonical
    channels are process-wide string constants; each is given the spelling
    of its own name (channels in lower case).  The results below use only
    that the constants are pairwise distinct. *)
Module Defines.
Definition L2_BOOK := "l2_book".
Definition L3_BOOK := "l3_book".
Definition TRADES := "trades".
Definition TICKER := "ticker".
Definition VOLUME := "volume".
Definition FUNDING := "funding".
Definition INSTRUMENT := "instrument".
Definition TRADES_SWAP := "trades_swap".
Definition TICKER_SWAP := "ticker_swap".
Definition L2_BOOK_SWAP := "l2_book_swap".
Definition UNSUPPORTED := "unsupported".

Definition BITFINEX := "BITFINEX".
Definition GEMINI := "GEMINI".
Definition POLONIEX := "POLONIEX".
Definition HITBTC := "HITBTC".
Definition BITSTAMP := "BITSTAMP".
Definition COINBASE := "COINBASE".
Definition BITMEX := "BITMEX".
Definition KRAKEN := "KRAKEN".
Definition KRAKEN_FUTURES := "KRAKEN_FUTURES".
Definition BINANCE := "BINANCE".
Definition EXX := "EXX".
Definition HUOBI := "HUOBI".
Definition HUOBI_US := "HUOBI_US".
Definition HUOBI_DM := "HUOBI_DM".
Definition OKCOIN := "OKCOIN".
Definition OKEX := "OKEX".
Definition COINBENE := "COINBENE".
Definition BYBIT := "BYBIT".
Definition FTX := "FTX".
Definition DERIBIT := "DERIBIT".
End Defines.

(** ** [cryptofeed/standards.py] *)

Module Standards.
Import Defines.

(** [x in {a, b, ...}] for string constants. *)
Definition in_set (x : string) (xs : list string) : bool :=
  bool_decide (x ∈ xs).

(** The two module-level dicts [_std_trading_pairs] and
    [_exchange_to_std]. *)
Record registry : Type := Registry {
  _std_trading_pairs : gmap string (gmap string string);
  _exchange_to_std : gmap string string
}.

(** Both dicts start empty when the module is imported. *)
Definition initial : registry := Registry ∅ ∅.

Definition dynamic_exchanges : list string :=
  [BITMEX; DERIBIT; KRAKEN_FUTURES].

(** One iteration of the loop of [load_exchange_pair_mapping]. *)
Definition load_item (exchange : string) (r : registry)
    (item : string * string) : registry :=
  let '(std, exch) := item in
  let e2s := <[exch := std]> (_exchange_to_std r) in
  match _std_trading_pairs r !! std with
  | Some per_exchange =>
      Registry (<[std := <[exchange := exch]> per_exchange]>
                  (_std_trading_pairs r)) e2s
  | None =>
      Registry (<[std := {[exchange := exch]}]> (_std_trading_pairs r)) e2s
  end.

Section Loading.
(** [gen_pairs] (module [cryptofeed.pairs], outside the sources) queries
    the exchange; it is a parameter here, giving the items of the dict
    it returns in iteration order. *)
Variable gen_pairs : string → list (string * string).

Definition load_exchange_pair_mapping (exchange : string)
    (r : registry) : registry :=
  if in_set exchange dynamic_exchanges then r
  else foldl (load_item exchange) r (gen_pairs exchange).

(** The registry after loading the given exchanges, in order, into the
    freshly imported module. *)
Definition load_all (exchanges : list string) : registry :=
  foldl (λ r exchange, load_exchange_pair_mapping exchange r)
        initial exchanges.
End Loading.

(** ['-' not in pair] is [negb (has_char "-" pair)]. *)
Fixpoint has_char (c : ascii) (s : string) : bool :=
  match s with
  | EmptyString => false
  | String a rest => if Ascii.eqb a c then true else has_char c rest
  end.

Definition not_supported (what where_ : string) : string :=
  what ++ " is not supported on " ++ where_.

Definition pair_std_to_exchange (r : registry) (pair exchange : string)
    : result string :=
  if in_set exchange dynamic_exchanges then Ok pair
  else
    match _std_trading_pairs r !! pair with
    | Some per_exchange =>
        match per_exchange !! exchange with
        | Some exch => Ok exch
        | None => Raise (UnsupportedTradingPair (not_supported pair exchange))
        end
    | None =>
        if bool_decide (exchange = BITFINEX) && negb (has_char "-" pair)
        then Ok ("f" ++ pair)
        else Raise (UnsupportedTradingPair (not_supported pair exchange))
    end.

(** [pair[0]] raises [IndexError] on the empty string; [None] is the
    Python [None]. *)
Definition pair_exchange_to_std (r : registry) (pair : string)
    : result (option string) :=
  match _exchange_to_std r !! pair with
  | Some std => Ok (Some std)
  | None =>
      match pair with
      | EmptyString => Raise IndexError
      | String c rest =>
          if Ascii.eqb c "f" then Ok (Some rest) else Ok None
      end
  end.

(** *** Timestamps *)

(** What a caller passes as [ts]: a JSON integer, a float, a decimal
    (floats are decoded as [Decimal] by the BitMEX handler) or a string. *)
Inductive ts_value : Type :=
  | TsInt (n : Z)
  | TsFloat (f : float)
  | TsDecimal (d : Qc)
  | TsStr (s : string).

(** Conversion of a Python int to a float: correctly rounded, and
    [OverflowError] when the int is beyond the range of a double. *)
Definition float_of_int (n : Z) : result float :=
  match binary_normalize prec emax n 0 false with
  | S754_infinity _ => Raise OverflowError
  | sf => Ok (SF2Prim sf)
  end.

(** [ts / d] for a float [d]. Only ints and floats divide by a float. *)
Definition truediv_float (ts : ts_value) (d : float) : result ts_value :=
  match ts with
  | TsInt n =>
      match float_of_int n with
      | Ok f => Ok (TsFloat (f / d)%float)
      | Raise e => Raise e
      end
  | TsFloat f => Ok (TsFloat (f / d)%float)
  | TsDecimal _ | TsStr _ => Raise TypeError
  end.

Definition iso_exchanges : list string :=
  [BITMEX; COINBASE; HITBTC; OKCOIN; OKEX; BYBIT; FTX].
Definition millis_exchanges : list string :=
  [HUOBI; HUOBI_US; HUOBI_DM; BITFINEX; COINBENE; DERIBIT; BINANCE; GEMINI].
Definition micros_exchanges : list string := [BITSTAMP].

Section Timestamps.
(** [pd.Timestamp(ts).timestamp()] belongs to pandas; a parameter. *)
Variable pd_timestamp : ts_value → result ts_value.

Definition timestamp_normalize (exchange : string) (ts : ts_value)
    : result ts_value :=
  if in_set exchange iso_exchanges then pd_timestamp ts
  else if in_set exchange millis_exchanges then truediv_float ts 1000%float
  else if in_set exchange micros_exchanges
       then truediv_float ts 1000000%float
  else Ok ts.
End Timestamps.

(** The exact rational value of a finite float. *)
Definition float_value (f : float) : option Q :=
  match Prim2SF f with
  | S754_zero _ => Some 0%Q
  | S754_finite s m e =>
      let mant := if s then Z.neg m else Z.pos m in
      Some (inject_Z mant * (2 ^ e))%Q
  | _ => None
  end.

(** *** Channels *)

(** A table entry is a native channel name, a Poloniex channel number, or
    the [UNSUPPORTED] sentinel (itself a string). *)
Inductive native : Type :=
  | NStr (s : string)
  | NInt (n : Z).

Definition _feed_to_exchange_map : gmap string (gmap string native) :=
  list_to_map [
    (L2_BOOK, list_to_map [
      (BITFINEX, NStr "book-P0-F0-100");
      (POLONIEX, NStr L2_BOOK);
      (HITBTC, NStr "subscribeOrderbook");
      (COINBASE, NStr "level2");
      (BITMEX, NStr "orderBookL2");
      (BITSTAMP, NStr "order_book");
      (KRAKEN, NStr "book");
      (KRAKEN_FUTURES, NStr "book");
      (BINANCE, NStr "depth");
      (EXX, NStr "ENTRUST_ADD");
      (HUOBI, NStr "depth.step0");
      (HUOBI_US, NStr "depth.step0");
      (HUOBI_DM, NStr "depth.step0");
      (OKCOIN, NStr "spot/depth");
      (OKEX, NStr "spot/depth");
      (COINBENE, NStr L2_BOOK);
      (DERIBIT, NStr "book");
      (BYBIT, NStr "order_book_25L1");
      (FTX, NStr "orderbook");
      (GEMINI, NStr L2_BOOK)]);
    (L3_BOOK, list_to_map [
      (BITFINEX, NStr "book-R0-F0-100");
      (BITSTAMP, NStr "detail_order_book");
      (HITBTC, NStr UNSUPPORTED);
      (COINBASE, NStr "full");
      (BITMEX, NStr UNSUPPORTED);
      (POLONIEX, NStr UNSUPPORTED);
      (KRAKEN, NStr UNSUPPORTED);
      (KRAKEN_FUTURES, NStr UNSUPPORTED);
      (BINANCE, NStr UNSUPPORTED);
      (EXX, NStr UNSUPPORTED);
      (HUOBI, NStr UNSUPPORTED);
      (HUOBI_US, NStr UNSUPPORTED);
      (HUOBI_DM, NStr UNSUPPORTED);
      (OKCOIN, NStr UNSUPPORTED);
      (OKEX, NStr UNSUPPORTED);
      (BYBIT, NStr UNSUPPORTED);
      (FTX, NStr UNSUPPORTED);
      (GEMINI, NStr UNSUPPORTED)]);
    (TRADES, list_to_map [
      (POLONIEX, NStr TRADES);
      (HITBTC, NStr "subscribeTrades");
      (BITSTAMP, NStr "live_trades");
      (BITFINEX, NStr "trades");
      (COINBASE, NStr "matches");
      (BITMEX, NStr "trade");
      (KRAKEN, NStr "trade");
      (KRAKEN_FUTURES, NStr "trade");
      (BINANCE, NStr "aggTrade");
      (EXX, NStr "TRADE");
      (HUOBI, NStr "trade.detail");
      (HUOBI_US, NStr "trade.detail");
      (HUOBI_DM, NStr "trade.detail");
      (OKCOIN, NStr "spot/trade");
      (OKEX, NStr "spot/trade");
      (COINBENE, NStr TRADES);
      (DERIBIT, NStr "trades");
      (BYBIT, NStr "trade");
      (FTX, NStr "trades");
      (GEMINI, NStr TRADES)]);
    (TICKER, list_to_map [
      (POLONIEX, NInt 1002);
      (HITBTC, NStr "subscribeTicker");
      (BITFINEX, NStr "ticker");
      (BITSTAMP, NStr UNSUPPORTED);
      (COINBASE, NStr "ticker");
      (BITMEX, NStr UNSUPPORTED);
      (KRAKEN, NStr TICKER);
      (KRAKEN_FUTURES, NStr "ticker_lite");
      (BINANCE, NStr "ticker");
      (HUOBI, NStr UNSUPPORTED);
      (HUOBI_US, NStr UNSUPPORTED);
      (HUOBI_DM, NStr UNSUPPORTED);
      (OKCOIN, NStr "spot/ticker");
      (OKEX, NStr "spot/ticker");
      (COINBENE, NStr TICKER);
      (DERIBIT, NStr "ticker");
      (BYBIT, NStr UNSUPPORTED);
      (FTX, NStr "ticker");
      (GEMINI, NStr UNSUPPORTED)]);
    (VOLUME, list_to_map [(POLONIEX, NInt 1003)]);
    (FUNDING, list_to_map [
      (BITMEX, NStr "funding");
      (BITFINEX, NStr "trades")]);
    (TRADES_SWAP, list_to_map [(OKEX, NStr "swap/trade")]);
    (TICKER_SWAP, list_to_map [(OKEX, NStr "swap/ticker")]);
    (L2_BOOK_SWAP, list_to_map [(OKEX, NStr "swap/depth")]);
    (INSTRUMENT, list_to_map [(BITMEX, NStr "instrument")])].

(** What [LOG] receives. *)
Inductive log_record : Type :=
  | LogError (msg : string)
  | LogWarning (msg : string).

(** [ret == UNSUPPORTED]. *)
Definition is_unsupported (ret : native) : bool :=
  match ret with
  | NStr s => bool_decide (s = UNSUPPORTED)
  | NInt _ => false
  end.

(** Returns the records logged, in order, and the result. *)
Definition feed_to_exchange (r : registry) (exchange feed : string)
    : list log_record * result native :=
  if bool_decide (exchange = POLONIEX)
     && negb (bool_decide (is_Some (_feed_to_exchange_map !! feed)))
  then
    match pair_std_to_exchange r feed POLONIEX with
    | Ok exch => ([], Ok (NStr exch))
    | Raise e => ([], Raise e)
    end
  else
    match getitem _feed_to_exchange_map feed with
    | Raise e => ([], Raise e)
    | Ok per_exchange =>
        match getitem per_exchange exchange with
        | Raise e => ([], Raise e)
        | Ok ret =>
            if is_unsupported ret
            then ([LogError (not_supported feed exchange)],
                  Raise (UnsupportedDataFeed (not_supported feed exchange)))
            else ([], Ok ret)
        end
    end.
End Standards.

(** ** [cryptofeed/exchange/bitmex.py]: the order-book handler *)

Module Bitmex.
Import Defines.

(** The two keys [BID] and [ASK] of a per-pair book, index or delta. *)
Inductive side : Type := BID | ASK.

#[global] Instance side_eq_dec : EqDecision side.
Proof. solve_decision. Defined.

(** A dict with exactly the keys [BID] and [ASK].  The per-pair order-id
    index is a [defaultdict(dict)]: reading a side that was never written
    yields (and stores) an empty dict, so an absent side and an empty one
    are the same value here. *)
Record sides (A : Type) : Type := Sides { on_bid : A; on_ask : A }.
Arguments Sides {A} on_bid on_ask.
Arguments on_bid {A} s.
Arguments on_ask {A} s.

Definition at_side {A} (sd : side) (d : sides A) : A :=
  match sd with BID => on_bid d | ASK => on_ask d end.

Definition set_side {A} (sd : side) (a : A) (d : sides A) : sides A :=
  match sd with
  | BID => Sides a (on_ask d)
  | ASK => Sides (on_bid d) a
  end.

(** An entry of [msg['data']].  [symbol], [side] and [id] are always
    sent; [price] and [size] may be missing, and reading a missing one
    raises [KeyError]. *)
Record entry : Type := Entry {
  e_symbol : string;
  e_side : string;
  e_id : Z;
  e_price : option Qc;
  e_size : option Qc
}.

Record message : Type := Message {
  action : string;
  data : list entry
}.

(** [{BID: [], ASK: []}], lists of [(price, size)]. *)
Definition delta : Type := sides (list (Qc * Qc)).

(** The fields of the feed object that the handler reads and writes.
    [pairs] and [l2_book] come from the base class [Feed], which is outside
    the sources: [l2_book] is the dict that [_reset] fills, one
    [{BID: sd(), ASK: sd()}] per pair. *)
Record session : Type := Session {
  pairs : list string;
  partial_received : bool;
  l2_book : gmap string (sides (gmap Qc Qc));
  order_id : gmap string (sides (gmap Z Qc))
}.

(** One iteration of the loop of [_reset]. *)
Definition reset_pair (s : session) (pair : string) : session :=
  Session (pairs s) (partial_received s)
          (<[pair := Sides ∅ ∅]> (l2_book s))
          (<[pair := Sides ∅ ∅]> (order_id s)).

Definition _reset (s : session) : session :=
  foldl reset_pair (Session (pairs s) false (l2_book s) ∅) (pairs s).

(** *** Mutation with exceptions *)

Definition M (A : Type) : Type := session → session * result A.

Definition ret {A} (a : A) : M A := λ s, (s, Ok a).

Definition bind {A B} (m : M A) (k : A → M B) : M B :=
  λ s, match m s with
       | (s', Ok a) => k a s'
       | (s', Raise e) => (s', Raise e)
       end.

Notation "'let!' x ':=' m 'in' k" := (bind m (λ x, k))
  (at level 10, x pattern, m at level 100, k at level 200).

(** Reading a key of the entry or of a dict. *)
Definition item {A} (o : option A) : M A :=
  λ s, match o with
       | Some a => (s, Ok a)
       | None => (s, Raise KeyError)
       end.

(** [self.l2_book[pair][side][price] = size] *)
Definition set_level (pair : string) (sd : side) (price size : Qc)
    : M unit :=
  λ s, match l2_book s !! pair with
       | None => (s, Raise KeyError)
       | Some book =>
           let book' := set_side sd (<[price := size]> (at_side sd book)) book in
           (Session (pairs s) (partial_received s)
                    (<[pair := book']> (l2_book s)) (order_id s), Ok tt)
       end.

(** [del self.l2_book[pair][side][price]] *)
Definition del_level (pair : string) (sd : side) (price : Qc) : M unit :=
  λ s, match l2_book s !! pair with
       | None => (s, Raise KeyError)
       | Some book =>
           match at_side sd book !! price with
           | None => (s, Raise KeyError)
           | Some _ =>
               let book' := set_side sd (delete price (at_side sd book)) book in
               (Session (pairs s) (partial_received s)
                        (<[pair := book']> (l2_book s)) (order_id s), Ok tt)
           end
       end.

(** [self.order_id[pair][side][order_id]] *)
Definition get_order (pair : string) (sd : side) (oid : Z) : M Qc :=
  λ s, match order_id s !! pair with
       | None => (s, Raise KeyError)
       | Some index =>
           match at_side sd index !! oid with
           | None => (s, Raise KeyError)
           | Some price => (s, Ok price)
           end
       end.

(** [self.order_id[pair][side][order_id] = price] *)
Definition set_order (pair : string) (sd : side) (oid : Z) (price : Qc)
    : M unit :=
  λ s, match order_id s !! pair with
       | None => (s, Raise KeyError)
       | Some index =>
           let index' := set_side sd (<[oid := price]> (at_side sd index)) index in
           (Session (pairs s) (partial_received s) (l2_book s)
                    (<[pair := index']> (order_id s)), Ok tt)
       end.

(** [del self.order_id[pair][side][order_id]] *)
Definition del_order (pair : string) (sd : side) (oid : Z) : M unit :=
  λ s, match order_id s !! pair with
       | None => (s, Raise KeyError)
       | Some index =>
           match at_side sd index !! oid with
           | None => (s, Raise KeyError)
           | Some _ =>
               let index' := set_side sd (delete oid (at_side sd index)) index in
               (Session (pairs s) (partial_received s) (l2_book s)
                        (<[pair := index']> (order_id s)), Ok tt)
           end
       end.

(** *** The loops of [_book] *)

(** The local variables [pair] and [delta]. *)
Definition locals : Type := option string * delta.

(** [BID if data['side'] == 'Buy' else ASK] *)
Definition side_of (d : entry) : side :=
  if bool_decide (e_side d = "Buy") then BID else ASK.

(** [delta[side].append(x)] *)
Definition append (sd : side) (x : Qc * Qc) (dl : delta) : delta :=
  set_side sd (at_side sd dl ++ [x])%list dl.

(** Body of the loop for [partial] and [insert]. *)
Definition insert_entry (l : locals) (d : entry) : M locals :=
  let sd := side_of d in
  let! price := item (e_price d) in
  let pair := e_symbol d in
  let! size := item (e_size d) in
  let oid := e_id d in
  let! _ := set_level pair sd price size in
  let! _ := set_order pair sd oid price in
  ret (Some pair, append sd (price, size) (snd l)).

(** Body of the loop for [update]. *)
Definition update_entry (l : locals) (d : entry) : M locals :=
  let sd := side_of d in
  let pair := e_symbol d in
  let! update_size := item (e_size d) in
  let oid := e_id d in
  let! price := get_order pair sd oid in
  let! _ := set_level pair sd price update_size in
  let! _ := set_order pair sd oid price in
  ret (Some pair, append sd (price, update_size) (snd l)).

(** Body of the loop for [delete]; the size recorded is the integer 0. *)
Definition delete_entry (l : locals) (d : entry) : M locals :=
  let pair := e_symbol d in
  let sd := side_of d in
  let oid := e_id d in
  let! delete_price := get_order pair sd oid in
  let! _ := del_order pair sd oid in
  let! _ := del_level pair sd delete_price in
  ret (Some pair, append sd (delete_price, Q2Qc 0) (snd l)).

(** [for data in msg['data']: body]: stops at the first exception. *)
Fixpoint for_each (body : locals → entry → M locals) (l : locals)
    (ds : list entry) : M locals :=
  match ds with
  | [] => ret l
  | d :: ds' => let! l' := body l d in for_each body l' ds'
  end.

(** *** [_book] *)

(** Modelled from the spec: [Feed.book_callback] is outside the sources;
    an emission is the tuple [(pair, channel, forced, delta, timestamp)]
    that the handler passes to it.  [em_pair] is [None] when no entry
    bound [pair]. *)
Record emission : Type := Emission {
  em_pair : option string;
  em_channel : string;
  em_forced : bool;
  em_delta : delta;
  em_timestamp : float
}.

(** How a call of [_book] ends. *)
Inductive outcome : Type :=
  | Discarded                  (* the [return] before the first partial *)
  | Unexpected                 (* warning logged, then [return] *)
  | Emitted (e : emission)     (* [book_callback] awaited once *)
  | Raised (e : exn).

Definition is_action (msg : message) (a : string) : bool :=
  bool_decide (action msg = a).

(** The gate on [partial_received]: [None] is the early [return],
    otherwise the session and the value of [forced]. *)
Definition gate (msg : message) (s : session) : option (session * bool) :=
  if negb (partial_received s) then
    if negb (is_action msg "partial") then None
    else Some (Session (pairs s) true (l2_book s) (order_id s), true)
  else Some (s, false).

(** The end of a loop: an exception propagates, otherwise the call
    [await self.book_callback(pair, L2_BOOK, forced, delta, timestamp)]. *)
Definition emit (forced : bool) (timestamp : float)
    (r : session * result locals) : session * outcome :=
  match r with
  | (s', Ok (pair', dl')) =>
      (s', Emitted (Emission pair' L2_BOOK forced dl' timestamp))
  | (s', Raise e) => (s', Raised e)
  end.

Definition _book (msg : message) (timestamp : float) (s : session)
    : session * outcome :=
  let pair : option string := None in
  let dl : delta := Sides [] [] in
  match gate msg s with
  | None => (s, Discarded)
  | Some (s, forced) =>
      if is_action msg "partial" || is_action msg "insert"
      then emit forced timestamp
                (for_each insert_entry (pair, dl) (data msg) s)
      else if is_action msg "update"
      then emit forced timestamp
                (for_each update_entry (pair, dl) (data msg) s)
      else if is_action msg "delete"
      then emit forced timestamp
                (for_each delete_entry (pair, dl) (data msg) s)
      else (s, Unexpected)
  end.

(** The handler applied to the messages of a stream, one after the other
    (an exception leaves the session as the failed call left it). *)
Fixpoint run (s : session) (msgs : list (message * float))
    : session * list outcome :=
  match msgs with
  | [] => (s, [])
  | (msg, ts) :: rest =>
      let '(s', o) := _book msg ts s in
      let '(s'', os) := run s' rest in
      (s'', o :: os)
  end.
End Bitmex.

(** ** Notions used to state the properties of the handler *)

Module BookNotions.
Import Defines Bitmex.

(** [self.order_id[pair][side][oid]], failing with [None]. *)
Definition index_lookup (s : session) (pair : string) (sd : side)
    (oid : Z) : option Qc :=
  order_id s !! pair ≫= λ index, at_side sd index !! oid.

(** The loop body that an action selects, if any. *)
Definition body_of (a : string) : option (locals → entry → M locals) :=
  if bool_decide (a = "partial") || bool_decide (a = "insert")
  then Some insert_entry
  else if bool_decide (a = "update") then Some update_entry
  else if bool_decide (a = "delete") then Some delete_entry
  else None.

(** The position of the first message that passes the gate of a session
    that has not received a partial yet: the first partial. *)
Fixpoint first_accepted (msgs : list (message * float)) : option nat :=
  match msgs with
  | [] => None
  | (msg, _) :: rest =>
      if is_action msg "partial" then Some 0%nat
      else S <$> first_accepted rest
  end.

(** No operation of the loops writes [partial_received]. *)
Definition keeps_flag {A} (m : M A) : Prop :=
  ∀ s, partial_received (m s).1 = partial_received s.

(** The index and the book of one pair and side agree: every id of the
    index is mapped to a price that is a level of the book (a book holds
    at most one level per price), and every level of the book is the
    price of some id. *)
Definition consistent (book : gmap Qc Qc) (index : gmap Z Qc) : Prop :=
  (∀ oid price, index !! oid = Some price → is_Some (book !! price)) ∧
  (∀ price, is_Some (book !! price) → ∃ oid, index !! oid = Some price).

(** The same for every pair of the session and both sides. *)
Definition book_consistent (s : session) : Prop :=
  ∀ pair index,
    order_id s !! pair = Some index →
    ∃ book, l2_book s !! pair = Some book ∧
            ∀ sd, consistent (at_side sd book) (at_side sd index).

(** The fields that the wire format requires for each action. *)
Definition well_formed (msg : message) : bool :=
  if is_action msg "partial" || is_action msg "insert"
  then forallb (λ d, bool_decide (is_Some (e_price d))
                     && bool_decide (is_Some (e_size d))) (data msg)
  else if is_action msg "update"
  then forallb (λ d, bool_decide (is_Some (e_size d))) (data msg)
  else is_action msg "delete".

(** All entries of the message are on the given pair and side. *)
Definition on_pair_side (pair : string) (sd : side) (msg : message) : bool :=
  forallb (λ d, bool_decide (e_symbol d = pair)
                && bool_decide (side_of d = sd)) (data msg).

(** On BitMEX an id of the L2 book names a price level: the entries of
    partial and insert messages carry the price [price_of pair side id]. *)
Definition level_ids (price_of : string → side → Z → Qc) (msg : message)
    : Prop :=
  is_action msg "partial" || is_action msg "insert" = true →
  ∀ d price,
    d ∈ data msg → e_price d = Some price →
    price = price_of (e_symbol d) (side_of d) (e_id d).

(** The prices of the index are those that the ids name. *)
Definition priced (price_of : string → side → Z → Qc)
    (pair : string) (sd : side) (index : gmap Z Qc) : Prop :=
  ∀ oid price, index !! oid = Some price → price = price_of pair sd oid.

(** Consistency together with [priced], for every pair and side. *)
Definition inv (price_of : string → side → Z → Qc) (s : session) : Prop :=
  ∀ pair index,
    order_id s !! pair = Some index →
    ∃ book, l2_book s !! pair = Some book ∧
            ∀ sd, consistent (at_side sd book) (at_side sd index) ∧
                  priced price_of pair sd (at_side sd index).
End BookNotions.

(** ** Notions used to state the properties of the registry *)

Module RegistryNotions.
Import Defines Standards.

(** [_std_trading_pairs[pair][exchange]] exists. *)
Definition registered (r : registry) (pair exchange : string) : Prop :=
  is_Some (_std_trading_pairs r !! pair ≫= λ per_exchange,
           per_exchange !! exchange).

(** No native spelling stands for two canonical pairs in the mappings of
    the given exchanges. *)
Definition unambiguous (gen_pairs : string → list (string * string))
    (exchanges : list string) : Prop :=
  ∀ ex1 ex2 std1 std2 exch,
    ex1 ∈ exchanges → ex2 ∈ exchanges →
    in_set ex1 dynamic_exchanges = false →
    in_set ex2 dynamic_exchanges = false →
    (std1, exch) ∈ gen_pairs ex1 →
    (std2, exch) ∈ gen_pairs ex2 →
    std1 = std2.

(** [src std exch] says that some loaded mapping has the item
    [(std, exch)].  The forward table only holds static exchanges and is
    inverted by the reverse table, whose entries all come from loaded
    items. *)
Definition coherent (src : string → string → Prop) (r : registry) : Prop :=
  (∀ std per_exchange exchange exch,
     _std_trading_pairs r !! std = Some per_exchange →
     per_exchange !! exchange = Some exch →
     in_set exchange dynamic_exchanges = false ∧
     _exchange_to_std r !! exch = Some std) ∧
  (∀ exch std, _exchange_to_std r !! exch = Some std → src std exch).
End RegistryNotions.

(** ** Inputs used in the scenarios below *)

Module Scenario.
Import Bitmex.

(** The decimal with integral value [n]. *)
Definition dec (n : Z) : Qc := Q2Qc (inject_Z n).

Definition xbt_partial : message :=
  Message "partial"
    [Entry "XBTUSD" "Buy" 1 (Some (dec 100)) (Some (dec 5))].

Definition xbt_update : message :=
  Message "update" [Entry "XBTUSD" "Buy" 1 None (Some (dec 3))].

Definition xbt_delete : message :=
  Message "delete" [Entry "XBTUSD" "Buy" 1 None None].

(** A feed object subscribed to XBTUSD, before its first [_reset]. *)
Definition xbt_feed : session := Session ["XBTUSD"] false ∅ ∅.

(** A delta ahead of the snapshot, then two snapshots. *)
Definition forced_stream : list (message * float) :=
  [(xbt_update, 1%float); (xbt_partial, 2%float); (xbt_partial, 3%float)].

(** The session after the XBTUSD snapshot. *)
Definition xbt_session : session :=
  (_book xbt_partial 1%float (_reset xbt_feed)).1.

(** An update whose second entry names an id that was never inserted. *)
Definition desync_update : message :=
  Message "update"
    [Entry "XBTUSD" "Buy" 1 None (Some (dec 3));
     Entry "XBTUSD" "Buy" 9 None (Some (dec 1))].

(** The three messages of the XBTUSD scenario. *)
Definition xbt_stream : list (message * float) :=
  [(xbt_partial, 1%float); (xbt_update, 2%float); (xbt_delete, 3%float)].

(** Ids that name price levels: id [n] is the level at price [99 + n]. *)
Definition xbt_price_of (pair : string) (sd : side) (oid : Z) : Qc :=
  dec (99 + oid).

(** A snapshot with two orders at price 100, then the delete of one. *)
Definition shared_level_stream : list (message * float) :=
  [(Message "partial"
      [Entry "XBTUSD" "Buy" 1 (Some (dec 100)) (Some (dec 5));
       Entry "XBTUSD" "Buy" 2 (Some (dec 100)) (Some (dec 7))], 1%float);
   (Message "delete" [Entry "XBTUSD" "Buy" 1 None None], 2%float)].


(** Two exchanges that spell BTC-USD differently. *)
Definition distinct_pairs (exchange : string) : list (string * string) :=
  if bool_decide (exchange = Defines.GEMINI)
  then [("BTC-USD", "BTCUSD"); ("ETH-USD", "ETHUSD")]
  else if bool_decide (exchange = Defines.BITSTAMP)
  then [("BTC-USD", "btcusd")]
  else [].

(** Two exchanges on which the spelling BTCUSD stands for different
    canonical pairs. *)
Definition clashing_pairs (exchange : string) : list (string * string) :=
  if bool_decide (exchange = Defines.GEMINI)
  then [("BTC-USD", "BTCUSD")]
  else if bool_decide (exchange = Defines.HITBTC)
  then [("BTC-USDT", "BTCUSD")]
  else [].

(** A Poloniex mapping with one pair. *)
Definition poloniex_pairs (exchange : string) : list (string * string) :=
  if bool_decide (exchange = Defines.POLONIEX)
  then [("BTC-USDT", "USDT_BTC")]
  else [].

(** A stand-in for pandas that accepts nothing. *)
Definition no_pandas (ts : Standards.ts_value)
    : result Standards.ts_value := Raise TypeError.
End Scenario.

(** ** [cryptofeed/standards.py]: trading options *)

Module TradingOptions.
Import Defines Standards.

(** Modelled from the spec: the order-option constants of
    [cryptofeed/defines.py], which is outside the sources; distinct
    strings, as the exchange ids and channels above. *)
Definition LIMIT := "limit".
Definition MARKET := "market".
Definition FILL_OR_KILL := "fill-or-kill".
Definition IMMEDIATE_OR_CANCEL := "immediate-or-cancel".
Definition MAKER_OR_CANCEL := "maker-or-cancel".

(** An entry of [_exchange_options]: a string (the [UNSUPPORTED] sentinel
    is one) or a dict of request parameters, given by its items. *)
Inductive option_value : Type :=
  | OStr (s : string)
  | ODict (items : list (string * native)).

Definition _exchange_options : gmap string (gmap string option_value) :=
  list_to_map [
    (LIMIT, list_to_map [
      (KRAKEN, OStr "limit");
      (GEMINI, OStr "exchange limit");
      (POLONIEX, OStr "limit");
      (COINBASE, OStr "limit")]);
    (MARKET, list_to_map [
      (KRAKEN, OStr "market");
      (GEMINI, OStr UNSUPPORTED);
      (POLONIEX, OStr UNSUPPORTED);
      (COINBASE, OStr "market")]);
    (FILL_OR_KILL, list_to_map [
      (GEMINI, OStr "fill-or-kill");
      (POLONIEX, OStr "fillOrKill");
      (COINBASE, ODict [("time_in_force", NStr "FOK")]);
      (KRAKEN, OStr UNSUPPORTED)]);
    (IMMEDIATE_OR_CANCEL, list_to_map [
      (GEMINI, OStr "immediate-or-cancel");
      (POLONIEX, OStr "immediateOrCancel");
      (COINBASE, ODict [("time_in_force", NStr "IOC")]);
      (KRAKEN, OStr UNSUPPORTED)]);
    (MAKER_OR_CANCEL, list_to_map [
      (GEMINI, OStr "maker-or-cancel");
      (POLONIEX, OStr "postOnly");
      (COINBASE, ODict [("post_only", NInt 1)]);
      (KRAKEN, OStr "post")])].

(** The one exception of [normalize_trading_options]. *)
Inductive options_exn : Type := UnsupportedTradingOption.

(** A value or an exception of type [E]. *)
Inductive raising (E A : Type) : Type :=
  | Returns (a : A)
  | Raises (e : E).
Arguments Returns {E A} a.
Arguments Raises {E A} e.

(** [ret == UNSUPPORTED]: a dict is never equal to a string. *)
Definition is_unsupported_option (ret : option_value) : bool :=
  match ret with
  | OStr s => bool_decide (s = UNSUPPORTED)
  | ODict _ => false
  end.

Definition normalize_trading_options (exchange option : string)
    : raising options_exn option_value :=
  match _exchange_options !! option with
  | None => Raises UnsupportedTradingOption
  | Some per_exchange =>
      match per_exchange !! exchange with
      | None => Raises UnsupportedTradingOption
      | Some ret =>
          if is_unsupported_option ret
          then Raises UnsupportedTradingOption
          else Returns ret
      end
  end.
End TradingOptions.

(** ** [cryptofeed/exchange/bitmex.py]: construction and subscription *)

Module BitmexLifecycle.
Import Defines Bitmex TradingOptions.

(** The feed object: the session of the handler together with the
    attributes [channels] and [config] that the base class [Feed] (outside
    the sources) sets from the constructor arguments.  [config] is a dict
    from channel to pairs, given by its items in insertion order; an empty
    (or absent) config is falsy. *)
Record feed : Type := Feed {
  channels : list string;
  config : list (string * list string);
  state : session
}.

Inductive init_exn : Type := ValueError (msg : string).

(** [pair.startswith('.')] *)
Definition startswith_dot (pair : string) : bool :=
  match pair with
  | String c _ => Ascii.eqb c "."
  | EmptyString => false
  end.

(** [[pair for inner in pairs for pair in inner]] over
    [list(self.config.values())]. *)
Definition config_pairs (cfg : list (string * list string)) : list string :=
  concat cfg.*2.

(** The validation loop of [__init__]: the first pair that is neither an
    index (leading dot) nor active raises. *)
Fixpoint check_active (active_pairs ps : list string) : option init_exn :=
  match ps with
  | [] => None
  | p :: rest =>
      if negb (startswith_dot p) && negb (bool_decide (p ∈ active_pairs))
      then Some (ValueError (p ++ " is not active on BitMEX"))
      else check_active active_pairs rest
  end.

(** [Bitmex.__init__] after [super().__init__] has built [f];
    [active_pairs] is what [get_active_symbols] fetched from the exchange. *)
Definition __init__ (active_pairs : list string) (f : feed)
    : raising init_exn feed :=
  let ps :=
    match config f with
    | [] => pairs (state f)
    | _ => config_pairs (config f)
    end in
  let st := Session ps (partial_received (state f))
                    (l2_book (state f)) (order_id (state f)) in
  match check_active active_pairs ps with
  | Some e => Raises e
  | None => Returns (Feed (channels f) (config f) (_reset st))
  end.

(** ["{}:{}".format(channel, pair)] *)
Definition token (channel pair : string) : string :=
  channel ++ ":" ++ pair.

(** The list [chans] that [subscribe] builds. *)
Definition subscribe_args (f : feed) : list string :=
  match config f with
  | [] =>
      channel ← channels f; p ← pairs (state f); [token channel p]
  | cfg =>
      '(channel, ps) ← cfg; p ← ps; [token channel p]
  end.

(** [subscribe]: the feed after [self._reset()] and the ["args"] of the
    subscribe request sent on the websocket (its ["op"] is "subscribe"). *)
Definition subscribe (f : feed) : feed * list string :=
  let f' := Feed (channels f) (config f) (_reset (state f)) in
  (f', subscribe_args f').
End BitmexLifecycle.

(** ** Notions used to state further properties *)

Module MoreNotions.
Import Defines Standards Bitmex BookNotions.

(** The delta of a partial or insert message: the [(price, size)] of its
    entries on the given side, in message order. *)
Definition levels_on (sd : side) (ds : list entry) : list (Qc * Qc) :=
  omap (λ d, if decide (side_of d = sd)
             then price ← e_price d; size ← e_size d; Some (price, size)
             else None) ds.

(** The pair is a key of both the books and the index. *)
Definition subscribed (s : session) (pair : string) : Prop :=
  is_Some (l2_book s !! pair) ∧ is_Some (order_id s !! pair).

(** An entry that a partial or insert can apply. *)
Definition insertable (s : session) (d : entry) : Prop :=
  is_Some (e_price d) ∧ is_Some (e_size d) ∧ subscribed s (e_symbol d).

(** What no step of the loops changes between two sessions: the list of
    pairs, the keys of the books and of the index, and the books and the
    index of every pair outside [syms]. *)
Definition stable (syms : list string) (s s' : session) : Prop :=
  pairs s' = pairs s ∧
  (∀ q, is_Some (l2_book s' !! q) ↔ is_Some (l2_book s !! q)) ∧
  (∀ q, is_Some (order_id s' !! q) ↔ is_Some (order_id s !! q)) ∧
  (∀ q, q ∉ syms →
        l2_book s' !! q = l2_book s !! q ∧
        order_id s' !! q = order_id s !! q).

(** The computation leaves the session in relation [R] with the one it
    started from, whether it returns or raises. *)
Definition preserves {A} (R : session → session → Prop) (m : M A) : Prop :=
  ∀ s, R s (m s).1.

(** [self.l2_book[pair][side][price]], failing with [None]. *)
Definition level (s : session) (pair : string) (sd : side) (price : Qc)
    : option Qc :=
  l2_book s !! pair ≫= λ book, at_side sd book !! price.

(** Every price that the index holds is a level of the book. *)
Definition index_in_book (s : session) : Prop :=
  ∀ pair sd oid price,
    index_lookup s pair sd oid = Some price →
    is_Some (level s pair sd price).

(** Every level and every indexed id of [s] is still one in [s']. *)
Definition grows (s s' : session) : Prop :=
  (∀ pair sd price,
     is_Some (level s pair sd price) → is_Some (level s' pair sd price)) ∧
  (∀ pair sd oid,
     is_Some (index_lookup s pair sd oid) →
     is_Some (index_lookup s' pair sd oid)).

(** The pairs that [__init__] validates and resets: those of the config
    when there is one, else those of the feed. *)
Definition effective_pairs (f : BitmexLifecycle.feed) : list string :=
  match BitmexLifecycle.config f with
  | [] => pairs (BitmexLifecycle.state f)
  | cfg => BitmexLifecycle.config_pairs cfg
  end.

(** The pair needs no check (an index, named with a leading dot) or is
    active on the exchange. *)
Definition acceptable (active_pairs : list string) (p : string) : Prop :=
  BitmexLifecycle.startswith_dot p = true ∨ p ∈ active_pairs.

(** [_std_trading_pairs[pair][exchange]], failing with [None]. *)
Definition forward (r : registry) (pair exchange : string) : option string :=
  _std_trading_pairs r !! pair ≫= λ per_exchange, per_exchange !! exchange.
End MoreNotions.

(** ** Further inputs *)

Module MoreScenario.
Import Defines Standards Bitmex BitmexLifecycle Scenario.

(** A snapshot with a bid and an ask. *)
Definition two_sided_partial : message :=
  Message "partial"
    [Entry "XBTUSD" "Buy" 1 (Some (dec 100)) (Some (dec 5));
     Entry "XBTUSD" "Sell" 3 (Some (dec 102)) (Some (dec 7))].

(** A snapshot for a pair that the feed is not subscribed to. *)
Definition eth_partial : message :=
  Message "partial"
    [Entry "ETHUSD" "Buy" 1 (Some (dec 10)) (Some (dec 2))].

(** An insert of a new order at a new price, and its delete. *)
Definition xbt_insert : message :=
  Message "insert" [Entry "XBTUSD" "Buy" 2 (Some (dec 101)) (Some (dec 4))].

Definition xbt_insert_entry : entry :=
  Entry "XBTUSD" "Buy" 2 (Some (dec 101)) (Some (dec 4)).

(** A feed with two channels and two pairs, and one configured per
    channel. *)
Definition plain_feed : feed :=
  Feed ["orderBookL2"; "trade"] []
       (Session ["XBTUSD"; ".BXBT"] true ∅ ∅).

Definition configured_feed : feed :=
  Feed [] [("orderBookL2", ["XBTUSD"; "ETHUSD"]); ("trade", ["XBTUSD"])]
       (Session [] false ∅ ∅).
End MoreScenario.

(** * Properties of the order-book handler *)

Module BitmexSpec.
Import Defines Bitmex BookNotions Scenario.

(** ** [_reset] *)

Lemma reset_fold_partial ps s :
  partial_received (foldl reset_pair s ps) = partial_received s.
Proof. revert s. induction ps as [|p ps IH]; intros s; [done|]. simpl. by rewrite IH. Qed.

Lemma foldl_insert_lookup {A} (v : A) ps (m : gmap string A) p :
  foldl (λ m q, <[q := v]> m) m ps !! p =
    if bool_decide (p ∈ ps) then Some v else m !! p.
Proof.
  revert m. induction ps as [|q ps IH]; intros m; cbn [foldl].
  - by rewrite bool_decide_eq_false_2 by apply not_elem_of_nil.
  - rewrite IH. destruct (decide (p = q)) as [->|Hne].
    + rewrite lookup_insert_eq.
      rewrite (bool_decide_eq_true_2 (q ∈ q :: ps)) by (apply elem_of_cons; by left).
      by destruct (bool_decide (q ∈ ps)).
    + rewrite lookup_insert_ne by done.
      destruct (decide (p ∈ ps)) as [Hin|Hnin].
      * rewrite !bool_decide_eq_true_2; [done| |done]. apply elem_of_cons; by right.
      * rewrite !bool_decide_eq_false_2; [done| |done].
        intros [?|?]%elem_of_cons; done.
Qed.

Lemma reset_fold_order_id ps s :
  order_id (foldl reset_pair s ps) =
    foldl (λ m q, <[q := Sides ∅ ∅]> m) (order_id s) ps.
Proof. revert s. induction ps as [|q ps IH]; intros s; [done|]. simpl. by rewrite IH. Qed.

Lemma reset_fold_l2_book ps s :
  l2_book (foldl reset_pair s ps) =
    foldl (λ m q, <[q := Sides ∅ ∅]> m) (l2_book s) ps.
Proof. revert s. induction ps as [|q ps IH]; intros s; [done|]. simpl. by rewrite IH. Qed.

Lemma reset_partial_received s : partial_received (_reset s) = false.
Proof. unfold _reset. by rewrite (reset_fold_partial (pairs s)). Qed.

Lemma reset_order_id s p :
  order_id (_reset s) !! p =
    if bool_decide (p ∈ pairs s) then Some (Sides ∅ ∅) else None.
Proof.
  unfold _reset. rewrite (reset_fold_order_id (pairs s)).
  by rewrite foldl_insert_lookup.
Qed.

Lemma reset_l2_book s p :
  l2_book (_reset s) !! p =
    if bool_decide (p ∈ pairs s) then Some (Sides ∅ ∅) else l2_book s !! p.
Proof.
  unfold _reset. rewrite (reset_fold_l2_book (pairs s)).
  by rewrite foldl_insert_lookup.
Qed.

(** ** One loop iteration *)

Lemma set_side_same {A} sd (d : sides A) : set_side sd (at_side sd d) d = d.
Proof. by destruct sd, d. Qed.

Lemma at_set_side {A} sd sd' (a : A) d :
  at_side sd' (set_side sd a d) = if decide (sd = sd') then a else at_side sd' d.
Proof. destruct sd, sd', d; by case_decide. Qed.

Lemma insert_entry_ok s l d price size book index :
  e_price d = Some price →
  e_size d = Some size →
  l2_book s !! e_symbol d = Some book →
  order_id s !! e_symbol d = Some index →
  insert_entry l d s =
    (Session (pairs s) (partial_received s)
       (<[e_symbol d :=
            set_side (side_of d)
              (<[price := size]> (at_side (side_of d) book)) book]>
          (l2_book s))
       (<[e_symbol d :=
            set_side (side_of d)
              (<[e_id d := price]> (at_side (side_of d) index)) index]>
          (order_id s)),
     Ok (Some (e_symbol d), append (side_of d) (price, size) (snd l))).
Proof.
  intros Hp Hs Hb Hi.
  unfold insert_entry, bind, item, set_level, set_order, ret.
  rewrite Hp, Hs, Hb. simpl. by rewrite Hi.
Qed.

Lemma update_entry_ok s l d size book index price :
  e_size d = Some size →
  order_id s !! e_symbol d = Some index →
  at_side (side_of d) index !! e_id d = Some price →
  l2_book s !! e_symbol d = Some book →
  update_entry l d s =
    (Session (pairs s) (partial_received s)
       (<[e_symbol d :=
            set_side (side_of d)
              (<[price := size]> (at_side (side_of d) book)) book]>
          (l2_book s))
       (order_id s),
     Ok (Some (e_symbol d), append (side_of d) (price, size) (snd l))).
Proof.
  intros Hs Hi Ho Hb.
  unfold update_entry, bind, item, get_order, set_level, set_order, ret.
  rewrite Hs, Hi, Ho, Hb. simpl. rewrite Hi.
  by rewrite (insert_id _ _ _ Ho), set_side_same, (insert_id _ _ _ Hi).
Qed.

Lemma delete_entry_ok s l d book index price :
  order_id s !! e_symbol d = Some index →
  at_side (side_of d) index !! e_id d = Some price →
  l2_book s !! e_symbol d = Some book →
  is_Some (at_side (side_of d) book !! price) →
  delete_entry l d s =
    (Session (pairs s) (partial_received s)
       (<[e_symbol d :=
            set_side (side_of d)
              (delete price (at_side (side_of d) book)) book]>
          (l2_book s))
       (<[e_symbol d :=
            set_side (side_of d)
              (delete (e_id d) (at_side (side_of d) index)) index]>
          (order_id s)),
     Ok (Some (e_symbol d),
         append (side_of d) (price, Q2Qc 0) (snd l))).
Proof.
  intros Hi Ho Hb [size Hl].
  unfold delete_entry, bind, get_order, del_order, del_level, ret.
  rewrite Hi, Ho. simpl. rewrite Hi, Ho. simpl. by rewrite Hb, Hl.
Qed.

(** An id that the index does not hold stops the iteration at the read
    of the index, before anything is written. *)
Lemma update_entry_unknown s l d :
  index_lookup s (e_symbol d) (side_of d) (e_id d) = None →
  update_entry l d s = (s, Raise KeyError).
Proof.
  unfold index_lookup, update_entry, bind, item, get_order. intros H.
  destruct (e_size d); [|done].
  destruct (order_id s !! e_symbol d) as [index|]; [|done].
  simpl in H. by rewrite H.
Qed.

Lemma delete_entry_unknown s l d :
  index_lookup s (e_symbol d) (side_of d) (e_id d) = None →
  delete_entry l d s = (s, Raise KeyError).
Proof.
  unfold index_lookup, delete_entry, bind, get_order. intros H.
  destruct (order_id s !! e_symbol d) as [index|]; [|done].
  simpl in H. by rewrite H.
Qed.

Lemma for_each_cons body l d ds s :
  for_each body l (d :: ds) s =
    match body l d s with
    | (s', Ok l') => for_each body l' ds s'
    | (s', Raise e) => (s', Raise e)
    end.
Proof. reflexivity. Qed.

Lemma for_each_app body l ds1 ds2 s :
  for_each body l (ds1 ++ ds2)%list s =
    match for_each body l ds1 s with
    | (s', Ok l') => for_each body l' ds2 s'
    | (s', Raise e) => (s', Raise e)
    end.
Proof.
  revert l s. induction ds1 as [|d ds1 IH]; intros l s; [done|].
  cbn [app]. rewrite !for_each_cons.
  destruct (body l d s) as [s' [l'|e]]; [apply IH|done].
Qed.

(** ** The dispatch on the action *)

Lemma book_dispatch msg ts s :
  _book msg ts s =
    match gate msg s with
    | None => (s, Discarded)
    | Some (s1, forced) =>
        match body_of (action msg) with
        | Some body =>
            emit forced ts (for_each body (None, Sides [] []) (data msg) s1)
        | None => (s1, Unexpected)
        end
    end.
Proof.
  unfold _book, body_of, is_action.
  destruct (gate msg s) as [[s1 forced]|]; [|done].
  by repeat case_bool_decide.
Qed.

Lemma book_loop msg ts s s1 forced body :
  gate msg s = Some (s1, forced) →
  body_of (action msg) = Some body →
  _book msg ts s =
    emit forced ts (for_each body (None, Sides [] []) (data msg) s1).
Proof. intros Hg Hb. by rewrite book_dispatch, Hg, Hb. Qed.

Lemma gate_open msg s :
  partial_received s = true → gate msg s = Some (s, false).
Proof. unfold gate. by intros ->. Qed.

Lemma gate_closed msg s :
  partial_received s = false → action msg ≠ "partial" → gate msg s = None.
Proof.
  unfold gate, is_action. intros -> Ha. simpl.
  by rewrite bool_decide_eq_false_2.
Qed.

Lemma gate_first msg s :
  partial_received s = false →
  action msg = "partial" →
  gate msg s = Some (Session (pairs s) true (l2_book s) (order_id s), true).
Proof. unfold gate, is_action. by intros -> ->. Qed.

(** ** Messages before the first partial *)

(** C3. While [partial_received] is false, a message whose action is not
    [partial] (insert, update, delete or anything else) is discarded: the
    session (books, order-id index and [partial_received]) is returned
    unchanged and the call ends at the early [return], without calling
    [book_callback]. *)
Theorem book_before_partial_is_noop :
  ∀ (s : session) (msg : message) (timestamp : float),
    partial_received s = false →
    action msg ≠ "partial" →
    _book msg timestamp s = (s, Discarded).
Proof.
  intros s msg ts Hp Ha. rewrite book_dispatch.
  by rewrite (gate_closed msg s Hp Ha).
Qed.

Lemma book_before_partial_is_noop_witness :
  _book xbt_update 0%float (_reset xbt_feed) = (_reset xbt_feed, Discarded).
Proof.
  apply book_before_partial_is_noop.
  - reflexivity.
  - discriminate.
Defined.

(** ** Messages without entries *)

(** C10. A partial, insert, update or delete message whose [data] array is
    empty ([partial_received] already true for the last three) runs no
    loop iteration and still calls [book_callback], once, with [pair]
    still [None] and both sides of the delta empty; [forced] is true
    exactly when the session had not yet received a partial. *)
Theorem book_empty_data_emits_once :
  ∀ (s : session) (msg : message) (timestamp : float),
    data msg = [] →
    action msg = "partial" ∨
      (partial_received s = true ∧
       action msg ∈ ["insert"; "update"; "delete"]) →
    _book msg timestamp s =
      (Session (pairs s) true (l2_book s) (order_id s),
       Emitted (Emission None L2_BOOK (negb (partial_received s))
                         (Sides [] []) timestamp)).
Proof.
  intros [ps pr bk ix] [act ds] ts Hd Hact. simpl in *. subst ds.
  unfold _book, gate, is_action. simpl.
  destruct Hact as [->|[-> Hin]].
  - by destruct pr.
  - simpl. repeat (apply elem_of_cons in Hin as [->|Hin]; [done|]).
    by apply elem_of_nil in Hin.
Qed.

Lemma book_empty_data_emits_once_witness :
  _book (Message "delete" []) 0%float
        (Session ["XBTUSD"] true ∅ ∅) =
    (Session ["XBTUSD"] true ∅ ∅,
     Emitted (Emission None L2_BOOK false (Sides [] []) 0%float)).
Proof.
  apply (book_empty_data_emits_once
           (Session ["XBTUSD"] true ∅ ∅) (Message "delete" []) 0%float).
  - reflexivity.
  - right. split; [reflexivity|]. simpl.
    apply elem_of_cons; right. apply elem_of_cons; right.
    apply elem_of_cons; by left.
Defined.

(** ** The XBTUSD scenario *)

(** C4. On a session reset with XBTUSD among its pairs, the partial
    [{XBTUSD, Buy, id 1, price 100, size 5}] followed by the update
    [{XBTUSD, Buy, id 1, size 3}] gives exactly two emissions, the first
    forced with delta [{bid: [(100, 5)]}], the second not forced with
    delta [{bid: [(100, 3)]}], and leaves the XBTUSD bid book equal to
    [{100: 3}]; the delete [{XBTUSD, Buy, id 1}] that follows emits delta
    [{bid: [(100, 0)]}] and removes level 100, leaving the bid book empty. *)
Theorem xbt_scenario :
  ∀ (s0 : session) (t1 t2 t3 : float),
    "XBTUSD" ∈ pairs s0 →
    let '(s2, out2) :=
      run (_reset s0) [(xbt_partial, t1); (xbt_update, t2)] in
    let '(s3, out3) := run s2 [(xbt_delete, t3)] in
    out2 = [Emitted (Emission (Some "XBTUSD") L2_BOOK true
                              (Sides [(dec 100, dec 5)] []) t1);
            Emitted (Emission (Some "XBTUSD") L2_BOOK false
                              (Sides [(dec 100, dec 3)] []) t2)] ∧
    at_side BID <$> l2_book s2 !! "XBTUSD" = Some {[dec 100 := dec 3]} ∧
    out3 = [Emitted (Emission (Some "XBTUSD") L2_BOOK false
                              (Sides [(dec 100, dec 0)] []) t3)] ∧
    at_side BID <$> l2_book s3 !! "XBTUSD" = Some ∅.
Proof.
  intros s0 t1 t2 t3 Hin.
  pose proof (reset_partial_received s0) as Hp.
  pose proof (reset_l2_book s0 "XBTUSD") as Hb.
  pose proof (reset_order_id s0 "XBTUSD") as Hi.
  rewrite bool_decide_eq_true_2 in Hb, Hi by done.
  destruct (_reset s0) as [ps pr bk ix]. simpl in Hp, Hb, Hi. subst pr.
  cbn [run].
  (* the partial *)
  erewrite (book_loop xbt_partial t1);
    [ | by apply gate_first | reflexivity ].
  cbn [data xbt_partial pairs l2_book order_id]. rewrite for_each_cons.
  erewrite insert_entry_ok by (try eassumption; reflexivity).
  cbn [for_each ret emit e_symbol e_id pairs partial_received
       l2_book order_id snd].
  change (side_of _) with BID.
  cbn [set_side at_side append on_bid on_ask app].
  (* the update *)
  erewrite (book_loop xbt_update t2); [ | by apply gate_open | reflexivity ].
  cbn [data xbt_update]. rewrite for_each_cons.
  erewrite update_entry_ok;
    [ | reflexivity | apply lookup_insert_eq | apply lookup_insert_eq
      | apply lookup_insert_eq ].
  cbn [for_each ret emit e_symbol e_id pairs partial_received
       l2_book order_id snd].
  change (side_of _) with BID.
  cbn [set_side at_side append on_bid on_ask app].
  (* the delete *)
  erewrite (book_loop xbt_delete t3); [ | by apply gate_open | reflexivity ].
  cbn [data xbt_delete]. rewrite for_each_cons.
  erewrite delete_entry_ok;
    [ | apply lookup_insert_eq | apply lookup_insert_eq
      | apply lookup_insert_eq | ].
  2:{ change (side_of _) with BID. cbn [at_side on_bid].
      rewrite lookup_insert_eq. eauto. }
  cbn [for_each ret emit e_symbol e_id pairs partial_received
       l2_book order_id snd].
  change (side_of _) with BID.
  cbn [set_side at_side append on_bid on_ask app].
  rewrite !lookup_insert_eq. cbn [fmap option_fmap option_map at_side on_bid].
  rewrite insert_insert_eq, delete_insert_eq, delete_empty.
  repeat split; reflexivity.
Qed.

Lemma xbt_scenario_witness :
  let '(s2, out2) :=
    run (_reset xbt_feed)
        [(xbt_partial, 1%float); (xbt_update, 2%float)] in
  let '(s3, out3) := run s2 [(xbt_delete, 3%float)] in
  out2 = [Emitted (Emission (Some "XBTUSD") L2_BOOK true
                            (Sides [(dec 100, dec 5)] []) 1%float);
          Emitted (Emission (Some "XBTUSD") L2_BOOK false
                            (Sides [(dec 100, dec 3)] []) 2%float)] ∧
  at_side BID <$> l2_book s2 !! "XBTUSD" = Some {[dec 100 := dec 3]} ∧
  out3 = [Emitted (Emission (Some "XBTUSD") L2_BOOK false
                            (Sides [(dec 100, dec 0)] []) 3%float)] ∧
  at_side BID <$> l2_book s3 !! "XBTUSD" = Some ∅.
Proof.
  apply (xbt_scenario xbt_feed 1%float 2%float 3%float).
  simpl. apply elem_of_cons. by left.
Defined.

(** ** The forced flag *)

Lemma keeps_flag_ret {A} (a : A) : keeps_flag (ret a).
Proof. done. Qed.

Lemma keeps_flag_bind {A B} (m : M A) (k : A → M B) :
  keeps_flag m → (∀ a, keeps_flag (k a)) → keeps_flag (bind m k).
Proof.
  intros Hm Hk s. unfold bind. specialize (Hm s).
  destruct (m s) as [s' [a|e]]; simpl in *; [|done].
  by rewrite Hk.
Qed.

Lemma keeps_flag_item {A} (o : option A) : keeps_flag (item o).
Proof. intros s. unfold item. by destruct o. Qed.

Lemma keeps_flag_set_level p sd price size :
  keeps_flag (set_level p sd price size).
Proof. intros s. unfold set_level. by destruct (l2_book s !! p). Qed.

Lemma keeps_flag_del_level p sd price : keeps_flag (del_level p sd price).
Proof.
  intros s. unfold del_level.
  destruct (l2_book s !! p) as [book|]; [|done].
  by destruct (at_side sd book !! price).
Qed.

Lemma keeps_flag_get_order p sd oid : keeps_flag (get_order p sd oid).
Proof.
  intros s. unfold get_order.
  destruct (order_id s !! p) as [index|]; [|done].
  by destruct (at_side sd index !! oid).
Qed.

Lemma keeps_flag_set_order p sd oid price :
  keeps_flag (set_order p sd oid price).
Proof. intros s. unfold set_order. by destruct (order_id s !! p). Qed.

Lemma keeps_flag_del_order p sd oid : keeps_flag (del_order p sd oid).
Proof.
  intros s. unfold del_order.
  destruct (order_id s !! p) as [index|]; [|done].
  by destruct (at_side sd index !! oid).
Qed.

Create HintDb flag.
#[local] Hint Resolve keeps_flag_ret keeps_flag_item keeps_flag_set_level
  keeps_flag_del_level keeps_flag_get_order keeps_flag_set_order
  keeps_flag_del_order : flag.

Ltac keeps_flag_tac :=
  repeat (apply keeps_flag_bind; [auto with flag|intros ?]); auto with flag.

Lemma insert_entry_flag l d s :
  partial_received (insert_entry l d s).1 = partial_received s.
Proof. revert s. unfold insert_entry. keeps_flag_tac. Qed.

Lemma update_entry_flag l d s :
  partial_received (update_entry l d s).1 = partial_received s.
Proof. revert s. unfold update_entry. keeps_flag_tac. Qed.

Lemma delete_entry_flag l d s :
  partial_received (delete_entry l d s).1 = partial_received s.
Proof. revert s. unfold delete_entry. keeps_flag_tac. Qed.

Lemma for_each_flag body l ds s :
  (∀ l d s, partial_received (body l d s).1 = partial_received s) →
  partial_received (for_each body l ds s).1 = partial_received s.
Proof.
  intros Hbody. revert l s. induction ds as [|d ds IH]; intros l s; [done|].
  rewrite for_each_cons. specialize (Hbody l d s).
  destruct (body l d s) as [s' [l'|e]]; simpl in *; [|done].
  by rewrite IH.
Qed.

Lemma body_of_flag a body l d s :
  body_of a = Some body →
  partial_received (body l d s).1 = partial_received s.
Proof.
  unfold body_of. intros H.
  repeat case_match; simplify_eq;
    auto using insert_entry_flag, update_entry_flag, delete_entry_flag.
Qed.

Lemma emit_fst forced ts r : (emit forced ts r).1 = r.1.
Proof. by destruct r as [s [[p dl]|e]]. Qed.

Lemma book_keeps_flag msg ts s :
  partial_received s = true → partial_received (_book msg ts s).1 = true.
Proof.
  intros Hp. rewrite book_dispatch, (gate_open _ _ Hp).
  destruct (body_of (action msg)) as [body|] eqn:Hb; [|done].
  rewrite emit_fst, for_each_flag; [done|].
  intros. by eapply body_of_flag.
Qed.

Lemma book_open_not_forced msg ts s e :
  partial_received s = true →
  (_book msg ts s).2 = Emitted e → em_forced e = false.
Proof.
  intros Hp. rewrite book_dispatch, (gate_open _ _ Hp).
  destruct (body_of (action msg)) as [body|]; [|done].
  destruct (for_each _ _ _ _) as [s' [[p dl]|x]]; simpl; [|done].
  by intros [= <-].
Qed.

Lemma run_cons s msg ts rest :
  run s ((msg, ts) :: rest) =
    ((run (_book msg ts s).1 rest).1,
     (_book msg ts s).2 :: (run (_book msg ts s).1 rest).2).
Proof.
  simpl. destruct (_book msg ts s) as [s' o]. simpl.
  by destruct (run s' rest).
Qed.

Lemma run_open_not_forced msgs s i e :
  partial_received s = true →
  (run s msgs).2 !! i = Some (Emitted e) → em_forced e = false.
Proof.
  revert s i. induction msgs as [|[msg ts] rest IH]; intros s i Hp; [done|].
  rewrite run_cons. destruct i as [|i]; simpl.
  - intros [= H]. by eapply book_open_not_forced.
  - apply IH. by apply book_keeps_flag.
Qed.

Lemma run_closed_forced msgs s i e :
  partial_received s = false →
  (run s msgs).2 !! i = Some (Emitted e) →
  (em_forced e = true ↔ first_accepted msgs = Some i).
Proof.
  revert s i. induction msgs as [|[msg ts] rest IH]; intros s i Hp; [done|].
  rewrite run_cons. cbn [first_accepted]. unfold is_action.
  case_bool_decide as Ha.
  - (* the first partial *)
    rewrite book_dispatch, (gate_first _ _ Hp Ha).
    destruct (body_of (action msg)) as [body|] eqn:Hb;
      [|by rewrite Ha in Hb].
    rewrite emit_fst. destruct i as [|i]; simpl.
    + destruct (for_each _ _ _ _) as [s' [[p dl]|x]]; simpl; [|done].
      by intros [= <-].
    + intros Hi. eapply run_open_not_forced in Hi.
      * rewrite Hi. split; [done|]. by intros [=].
      * rewrite for_each_flag; [done|]. intros. by eapply body_of_flag.
  - (* discarded *)
    rewrite book_dispatch, (gate_closed _ _ Hp Ha).
    destruct i as [|i]; simpl; [done|].
    intros Hi. rewrite (IH _ _ Hp Hi).
    destruct (first_accepted rest); simpl; split; intros [=]; by subst.
Qed.

(** C5. In the stream of book messages that follows a reset, an emission
    carries [forced = true] if and only if it is the emission of the first
    accepted message, which is the first partial of the stream; every
    later emission, those of later partials included, carries
    [forced = false]. *)
Theorem forced_iff_first_accepted :
  ∀ (s0 : session) (msgs : list (message * float)) (i : nat) (e : emission),
    (run (_reset s0) msgs).2 !! i = Some (Emitted e) →
    (em_forced e = true ↔ first_accepted msgs = Some i).
Proof.
  intros s0 msgs i e. apply run_closed_forced, reset_partial_received.
Qed.

Lemma forced_iff_first_accepted_witness :
  em_forced (Emission (Some "XBTUSD") L2_BOOK true
                      (Sides [(dec 100, dec 5)] []) 2%float) = true ↔
  first_accepted forced_stream = Some 1%nat.
Proof.
  apply (forced_iff_first_accepted xbt_feed forced_stream 1).
  vm_compute. reflexivity.
Defined.

(** ** Unknown order ids *)

(** C2, as the code has it.  An update or delete message processed after
    the first partial, whose entries [pre] apply without error and whose
    next entry names an order id that the index does not hold at that
    point, ends with [KeyError] (the handler has no exception type of its
    own for this) and without emission; the session is left exactly as
    the entries of [pre] left it, so it is unchanged when the unknown id
    comes first and keeps the writes of the earlier entries otherwise. *)
Theorem book_unknown_id_raises :
  ∀ (s s1 : session) (msg : message) (timestamp : float)
    (body : locals → entry → M locals)
    (pre post : list entry) (d : entry) (l1 : locals),
    partial_received s = true →
    (action msg = "update" ∧ body = update_entry) ∨
      (action msg = "delete" ∧ body = delete_entry) →
    data msg = (pre ++ d :: post)%list →
    for_each body (None, Sides [] []) pre s = (s1, Ok l1) →
    index_lookup s1 (e_symbol d) (side_of d) (e_id d) = None →
    _book msg timestamp s = (s1, Raised KeyError).
Proof.
  intros s s1 msg ts body pre post d l1 Hp Hact Hdata Hpre Hunk.
  assert (body_of (action msg) = Some body) as Hbody.
  { by destruct Hact as [[-> ->]|[-> ->]]. }
  rewrite (book_loop _ _ _ _ _ _ (gate_open _ _ Hp) Hbody).
  rewrite Hdata, for_each_app, Hpre, for_each_cons.
  destruct Hact as [[_ ->]|[_ ->]].
  - by rewrite update_entry_unknown.
  - by rewrite delete_entry_unknown.
Qed.

Lemma book_unknown_id_raises_witness :
  _book desync_update 2%float xbt_session =
    ((for_each update_entry (None, Sides [] [])
               [Entry "XBTUSD" "Buy" 1 None (Some (dec 3))] xbt_session).1,
     Raised KeyError).
Proof.
  apply (book_unknown_id_raises
           xbt_session _ desync_update 2%float update_entry
           [Entry "XBTUSD" "Buy" 1 None (Some (dec 3))] []
           (Entry "XBTUSD" "Buy" 9 None (Some (dec 1)))
           (Some "XBTUSD", Sides [(dec 100, dec 3)] [])).
  - reflexivity.
  - left. split; reflexivity.
  - reflexivity.
  - vm_compute. reflexivity.
  - vm_compute. reflexivity.
Defined.

(** The update [desync_update] names the unknown id 9 in its second
    entry: the call raises, and the size written by its first entry
    (3 at price 100, over 5) stays in the book. *)
Lemma unknown_id_update_mutates :
  partial_received xbt_session = true ∧
  index_lookup xbt_session "XBTUSD" BID 9 = None ∧
  (_book desync_update 2%float xbt_session).2 = Raised KeyError ∧
  (l2_book xbt_session !! "XBTUSD" ≫=
     λ book, at_side BID book !! dec 100) = Some (dec 5) ∧
  (l2_book (_book desync_update 2%float xbt_session).1 !! "XBTUSD" ≫=
     λ book, at_side BID book !! dec 100) = Some (dec 3) ∧
  (_book desync_update 2%float xbt_session).1 ≠ xbt_session.
Proof.
  split; [reflexivity|]. split; [reflexivity|].
  split; [vm_compute; reflexivity|].
  split; [vm_compute; reflexivity|].
  split; [vm_compute; reflexivity|].
  intros H.
  apply (f_equal (λ s, l2_book s !! "XBTUSD" ≫=
                         λ book, at_side BID book !! dec 100)) in H.
  vm_compute in H. discriminate H.
Qed.

(** ** Book consistency *)

Section Consistency.
Variable price_of : string → side → Z → Qc.
Hypothesis price_of_inj : ∀ pair sd, Inj (=) (=) (price_of pair sd).

#[local] Abbreviation priced := (priced price_of).
#[local] Abbreviation inv := (inv price_of).

Lemma inv_consistent s : inv s → book_consistent s.
Proof.
  intros H pair index Hi. destruct (H pair index Hi) as (book & Hb & Hc).
  exists book. split; [done|]. intros sd. apply Hc.
Qed.

Lemma consistent_insert pair sd book index oid size :
  consistent book index → priced pair sd index →
  consistent (<[price_of pair sd oid := size]> book)
             (<[oid := price_of pair sd oid]> index) ∧
  priced pair sd (<[oid := price_of pair sd oid]> index).
Proof.
  intros [H1 H2] Hp. split; [split|].
  - intros o p. rewrite lookup_insert. case_decide as Ho.
    + intros [= <-]. rewrite lookup_insert_eq. eauto.
    + intros Hop. apply lookup_insert_is_Some'. right. eauto.
  - intros p [Hp'|Hp']%lookup_insert_is_Some'.
    + subst p. exists oid. by rewrite lookup_insert_eq.
    + destruct (H2 p Hp') as [o Ho]. exists o.
      destruct (decide (o = oid)) as [->|Hne].
      * rewrite lookup_insert_eq. f_equal. symmetry. by apply Hp.
      * by rewrite lookup_insert_ne.
  - intros o p. rewrite lookup_insert. case_decide as Ho.
    + by intros [= <-]; subst.
    + apply Hp.
Qed.

Lemma consistent_update book index oid price size :
  consistent book index → index !! oid = Some price →
  consistent (<[price := size]> book) index.
Proof.
  intros [H1 H2] Ho. split.
  - intros o p Hop. apply lookup_insert_is_Some'. right. eauto.
  - intros p [Hp'|Hp']%lookup_insert_is_Some'; [subst p|]; eauto.
Qed.

Lemma consistent_delete pair sd book index oid price :
  consistent book index → priced pair sd index →
  index !! oid = Some price →
  consistent (delete price book) (delete oid index) ∧
  priced pair sd (delete oid index).
Proof.
  intros [H1 H2] Hp Ho. split; [split|].
  - intros o p. rewrite lookup_delete. case_decide as Hoo; [done|].
    intros Hop. rewrite lookup_delete_ne; [eauto|].
    intros <-. apply Hoo. apply (price_of_inj pair sd).
    by rewrite <- (Hp _ _ Ho), <- (Hp _ _ Hop).
  - intros p. rewrite lookup_delete. case_decide as Hpp.
    { by intros [? ?]. }
    intros [o Hop]%H2. exists o. rewrite lookup_delete_ne; [done|].
    intros <-. congruence.
  - intros o p. rewrite lookup_delete. case_decide; [done|]. apply Hp.
Qed.

Lemma inv_flag s b :
  inv s → inv (Session (pairs s) b (l2_book s) (order_id s)).
Proof. done. Qed.

(** Writing the book and the index of one pair. *)
Lemma inv_write_pair s pair book index :
  inv s →
  (∀ sd, consistent (at_side sd book) (at_side sd index) ∧
         priced pair sd (at_side sd index)) →
  inv (Session (pairs s) (partial_received s)
               (<[pair := book]> (l2_book s))
               (<[pair := index]> (order_id s))).
Proof.
  intros Hinv Hnew pair' index'. simpl.
  destruct (decide (pair = pair')) as [<-|Hne].
  - rewrite !lookup_insert_eq. intros [= <-]. eauto.
  - rewrite !lookup_insert_ne by done. apply Hinv.
Qed.

(** Writing the book of a pair that has no index. *)
Lemma inv_write_book s pair book :
  inv s → order_id s !! pair = None →
  inv (Session (pairs s) (partial_received s)
               (<[pair := book]> (l2_book s)) (order_id s)).
Proof.
  intros Hinv Hnone pair' index'. simpl. intros Hi.
  rewrite lookup_insert_ne by congruence. by apply Hinv.
Qed.

Lemma inv_insert_entry l d s :
  inv s →
  (∀ price, e_price d = Some price →
            price = price_of (e_symbol d) (side_of d) (e_id d)) →
  inv (insert_entry l d s).1.
Proof.
  intros Hinv Hprice.
  unfold insert_entry, bind, item, set_level, set_order, ret.
  destruct (e_price d) as [price|]; [|done].
  rewrite (Hprice price eq_refl). clear Hprice price.
  destruct (e_size d) as [size|]; [|done].
  destruct (l2_book s !! e_symbol d) as [book|] eqn:Hb; [|done].
  simpl. destruct (order_id s !! e_symbol d) as [index|] eqn:Hi; simpl.
  - apply inv_write_pair; [done|]. intros sd.
    destruct (Hinv _ _ Hi) as (book' & Hb' & Hc).
    assert (book' = book) as -> by congruence.
    rewrite !at_set_side. case_decide as Hsd; [subst sd|apply Hc].
    apply consistent_insert; apply Hc.
  - by apply inv_write_book.
Qed.

Lemma inv_update_entry l d s : inv s → inv (update_entry l d s).1.
Proof.
  intros Hinv.
  unfold update_entry, bind, item, get_order, set_level, set_order, ret.
  destruct (e_size d) as [size|]; [|done].
  destruct (order_id s !! e_symbol d) as [index|] eqn:Hi; [|done].
  destruct (at_side (side_of d) index !! e_id d) as [price|] eqn:Ho;
    [|done].
  destruct (l2_book s !! e_symbol d) as [book|] eqn:Hb; [|done].
  simpl. rewrite Hi. simpl.
  apply inv_write_pair; [done|]. intros sd.
  destruct (Hinv _ _ Hi) as (book' & Hb' & Hc).
  assert (book' = book) as -> by congruence.
  rewrite !at_set_side. case_decide as Hsd; [subst sd|apply Hc].
  rewrite (insert_id _ _ _ Ho). split; [|apply Hc].
  eapply consistent_update; [apply Hc|done].
Qed.

Lemma inv_delete_entry l d s : inv s → inv (delete_entry l d s).1.
Proof.
  intros Hinv.
  unfold delete_entry, bind, get_order, del_order, del_level, ret.
  destruct (order_id s !! e_symbol d) as [index|] eqn:Hi; [|done].
  destruct (at_side (side_of d) index !! e_id d) as [price|] eqn:Ho;
    [|done].
  simpl. rewrite Hi, Ho. simpl.
  destruct (Hinv _ _ Hi) as (book & Hb & Hc). rewrite Hb.
  destruct (proj1 (proj1 (Hc (side_of d))) _ _ Ho) as [size Hl].
  rewrite Hl. simpl.
  apply inv_write_pair; [done|]. intros sd.
  rewrite !at_set_side. case_decide as Hsd; [subst sd|apply Hc].
  eapply consistent_delete; [apply Hc|apply Hc|done].
Qed.

Lemma inv_for_each body l ds s :
  (∀ l d s, d ∈ ds → inv s → inv (body l d s).1) →
  inv s → inv (for_each body l ds s).1.
Proof.
  revert l s. induction ds as [|d ds IH]; intros l s Hbody Hinv; [done|].
  rewrite for_each_cons.
  pose proof (Hbody l d s (list_elem_of_here d ds) Hinv) as Hd.
  destruct (body l d s) as [s' [l'|e]]; simpl in *; [|done].
  apply IH; [|done]. intros l0 d0 s0 Hin. apply Hbody.
  apply elem_of_cons. by right.
Qed.

Lemma inv_book msg ts s :
  level_ids price_of msg → inv s → inv (_book msg ts s).1.
Proof.
  intros Hids Hinv. unfold _book, gate.
  destruct (negb (partial_received s)).
  - destruct (negb (is_action msg "partial")); [done|].
    destruct (is_action msg "partial" || is_action msg "insert") eqn:Hins;
      [|repeat case_match; simpl; rewrite ?emit_fst;
        try (apply inv_for_each; [intros; by
          (apply inv_update_entry || apply inv_delete_entry)|]);
        by apply inv_flag].
    rewrite emit_fst. apply inv_for_each; [|by apply inv_flag].
    intros l d s' Hin Hs'. apply inv_insert_entry; [done|].
    intros price. by apply Hids.
  - destruct (is_action msg "partial" || is_action msg "insert") eqn:Hins;
      [|repeat case_match; simpl; rewrite ?emit_fst;
        try (apply inv_for_each; [intros; by
          (apply inv_update_entry || apply inv_delete_entry)|]);
        done].
    rewrite emit_fst. apply inv_for_each; [|done].
    intros l d s' Hin Hs'. apply inv_insert_entry; [done|].
    intros price. by apply Hids.
Qed.

Lemma inv_run msgs s :
  Forall (level_ids price_of) msgs.*1 → inv s → inv (run s msgs).1.
Proof.
  revert s. induction msgs as [|[msg ts] rest IH]; intros s Hall Hinv;
    [done|].
  rewrite run_cons. simpl. apply Forall_cons in Hall as [Hm Hrest].
  apply IH; [done|]. by apply inv_book.
Qed.

Lemma inv_reset s : inv (_reset s).
Proof.
  intros pair index. rewrite reset_order_id, reset_l2_book.
  case_bool_decide; [|done]. intros [= <-].
  eexists. split; [done|]. intros sd. split; [split|]; destruct sd; simpl.
  all: try (intros ? ?; by rewrite lookup_empty).
  all: intros ? [? ?]; by rewrite lookup_empty in *.
Qed.
End Consistency.

(** C1, as the code has it.  When the ids of the feed name price levels
    (the price of every partial or insert entry is determined by its
    pair, side and id, different ids naming different prices), then after
    a reset and after each message of any stream, for every pair that the
    session holds an index for (the pairs it is subscribed to) and each
    side, every id of the index is mapped to a price that is a level of
    the book, and every level of the book is the price of an id of the
    index. *)
Theorem book_consistency_level_ids :
  ∀ (price_of : string → side → Z → Qc),
    (∀ pair sd, Inj (=) (=) (price_of pair sd)) →
    ∀ (s0 : session) (msgs : list (message * float)) (k : nat),
      Forall (level_ids price_of) msgs.*1 →
      book_consistent (run (_reset s0) (take k msgs)).1.
Proof.
  intros price_of Hinj s0 msgs k Hall.
  apply (inv_consistent price_of), (inv_run price_of Hinj).
  - rewrite fmap_take. by apply Forall_take.
  - apply inv_reset.
Qed.

Lemma dec_inj : Inj (=) (=) dec.
Proof.
  intros a b H. apply Q2Qc_eq_iff in H.
  unfold Qeq in H. simpl in H. lia.
Qed.

Lemma book_consistency_level_ids_witness :
  book_consistent (run (_reset xbt_feed) (take 3 xbt_stream)).1.
Proof.
  apply (book_consistency_level_ids xbt_price_of).
  - intros pair sd a b H. apply dec_inj in H. lia.
  - repeat apply Forall_cons_2; [| | |apply Forall_nil_2].
    + intros _ d price Hd Hp. apply list_elem_of_singleton in Hd. subst d.
      simpl in Hp. injection Hp as <-. reflexivity.
    + intros Hact. vm_compute in Hact. discriminate Hact.
    + intros Hact. vm_compute in Hact. discriminate Hact.
Defined.

(** Two orders rest at price 100 and one of them is deleted: both
    messages are well formed, on XBTUSD bids, and are processed without
    error, yet id 2 is then mapped to the price 100 that is no longer a
    level of the book. *)
Lemma shared_level_breaks_consistency :
  forallb well_formed shared_level_stream.*1 = true ∧
  forallb (on_pair_side "XBTUSD" BID) shared_level_stream.*1 = true ∧
  (run (_reset xbt_feed) shared_level_stream).2 =
    [Emitted (Emission (Some "XBTUSD") L2_BOOK true
                       (Sides [(dec 100, dec 5); (dec 100, dec 7)] [])
                       1%float);
     Emitted (Emission (Some "XBTUSD") L2_BOOK false
                       (Sides [(dec 100, dec 0)] []) 2%float)] ∧
  ¬ book_consistent (run (_reset xbt_feed) shared_level_stream).1.
Proof.
  split; [vm_compute; reflexivity|].
  split; [vm_compute; reflexivity|].
  split; [vm_compute; reflexivity|].
  intros H.
  destruct (H "XBTUSD" (Sides {[2 := dec 100]} ∅)) as (book & Hb & Hc).
  { vm_compute. reflexivity. }
  destruct (Hc BID) as [H1 _].
  destruct (H1 2 (dec 100)) as [size Hsize]; [reflexivity|].
  vm_compute in Hb. injection Hb as <-.
  vm_compute in Hsize. discriminate Hsize.
Qed.
End BitmexSpec.

(** * Properties of the normalisation registry *)

Module StandardsSpec.
Import Defines Standards RegistryNotions Scenario.

(** ** Pairs *)

Section Coherence.
Variable src : string → string → Prop.
Hypothesis src_fun :
  ∀ std1 std2 exch, src std1 exch → src std2 exch → std1 = std2.

#[local] Abbreviation coherent := (coherent src).

Lemma coherent_initial : coherent initial.
Proof. split; intros *; simpl; by rewrite lookup_empty. Qed.

Lemma coherent_load_item exchange r std exch :
  in_set exchange dynamic_exchanges = false →
  src std exch →
  coherent r → coherent (load_item exchange r (std, exch)).
Proof.
  intros Hstatic Hsrc [Hfwd Hrev].
  assert (∀ std0 per0 ex0 exch0,
             _std_trading_pairs r !! std0 = Some per0 →
             per0 !! ex0 = Some exch0 →
             in_set ex0 dynamic_exchanges = false ∧
             <[exch := std]> (_exchange_to_std r) !! exch0 = Some std0)
    as Hold.
  { intros std0 per0 ex0 exch0 H1 H2.
    destruct (Hfwd _ _ _ _ H1 H2) as [Hs He]. split; [done|].
    destruct (decide (exch = exch0)) as [<-|Hne].
    - rewrite lookup_insert_eq. f_equal. eauto.
    - by rewrite lookup_insert_ne. }
  assert (∀ exch0 std0,
             <[exch := std]> (_exchange_to_std r) !! exch0 = Some std0 →
             src std0 exch0) as Hrev'.
  { intros exch0 std0. rewrite lookup_insert. case_decide as He.
    - intros [= <-]. by subst.
    - apply Hrev. }
  unfold load_item.
  destruct (_std_trading_pairs r !! std) as [per|] eqn:Hstd;
    (split; [|exact Hrev']); simpl;
    intros std0 per0 ex0 exch0; rewrite lookup_insert;
    (case_decide as Hs; [subst std0; intros [= <-]|by apply Hold]).
  - rewrite lookup_insert. case_decide as He.
    + intros [= <-]. subst ex0. by rewrite lookup_insert_eq.
    + by apply Hold.
  - intros [He <-]%lookup_singleton_Some. subst ex0.
    by rewrite lookup_insert_eq.
Qed.

Lemma coherent_load_items exchange items r :
  in_set exchange dynamic_exchanges = false →
  (∀ std exch, (std, exch) ∈ items → src std exch) →
  coherent r → coherent (foldl (load_item exchange) r items).
Proof.
  intros Hstatic. revert r.
  induction items as [|[std exch] items IH]; intros r Hsrc Hr; [done|].
  simpl. apply IH.
  - intros std' exch' Hin. apply Hsrc, elem_of_cons. by right.
  - apply coherent_load_item; [done| |done].
    apply Hsrc, elem_of_cons. by left.
Qed.

(** In a coherent registry a registered pair goes to its native
    spelling and comes back. *)
Lemma coherent_round_trip r pair exchange :
  coherent r → registered r pair exchange →
  ∃ exch, pair_std_to_exchange r pair exchange = Ok exch ∧
          pair_exchange_to_std r exch = Ok (Some pair).
Proof.
  intros [Hfwd _] [exch Hreg]. unfold pair_std_to_exchange.
  destruct (_std_trading_pairs r !! pair) as [per|] eqn:Hp; [|done].
  simpl in Hreg. destruct (Hfwd _ _ _ _ Hp Hreg) as [Hstatic Hback].
  exists exch. rewrite Hstatic, Hreg. split; [done|].
  unfold pair_exchange_to_std. by rewrite Hback.
Qed.
End Coherence.

Lemma load_all_snoc gen_pairs exchanges exchange :
  load_all gen_pairs (exchanges ++ [exchange])%list =
    load_exchange_pair_mapping gen_pairs exchange
      (load_all gen_pairs exchanges).
Proof. unfold load_all. by rewrite foldl_app. Qed.

Lemma coherent_load_all gen_pairs exchanges loaded :
  unambiguous gen_pairs exchanges →
  loaded ⊆ exchanges →
  coherent (λ std exch,
              ∃ ex, ex ∈ exchanges ∧
                    in_set ex dynamic_exchanges = false ∧
                    (std, exch) ∈ gen_pairs ex)
           (load_all gen_pairs loaded).
Proof.
  intros Hun.
  induction loaded as [|ex loaded IH] using rev_ind; intros Hsub.
  - apply coherent_initial.
  - rewrite load_all_snoc. unfold load_exchange_pair_mapping.
    assert (loaded ⊆ exchanges) as Hsub'.
    { intros x Hx. apply Hsub, elem_of_app. by left. }
    destruct (in_set ex dynamic_exchanges) eqn:Hdyn; [by apply IH|].
    apply coherent_load_items; [|done| |by apply IH].
    { intros std1 std2 exch (ex1 & ? & ? & ?) (ex2 & ? & ? & ?).
      by apply (Hun ex1 ex2 std1 std2 exch). }
    intros std exch Hin. exists ex. repeat split; [|done..].
    apply Hsub, elem_of_app. right. by apply list_elem_of_singleton.
Qed.

(** C6, as the code has it.  After the mappings of any list of exchanges
    have been loaded, if no native spelling stands for two canonical pairs
    in them, then for every exchange on which "BTC-USD" is registered
    [pair_std_to_exchange] returns a native pair that
    [pair_exchange_to_std] maps back to "BTC-USD". *)
Theorem btc_usd_round_trip :
  ∀ (gen_pairs : string → list (string * string))
    (exchanges : list string) (exchange : string),
    unambiguous gen_pairs exchanges →
    registered (load_all gen_pairs exchanges) "BTC-USD" exchange →
    ∃ exch,
      pair_std_to_exchange (load_all gen_pairs exchanges)
                           "BTC-USD" exchange = Ok exch ∧
      pair_exchange_to_std (load_all gen_pairs exchanges) exch =
        Ok (Some "BTC-USD").
Proof.
  intros gen_pairs exchanges exchange Hun Hreg.
  eapply coherent_round_trip; [|done].
  by apply (coherent_load_all gen_pairs exchanges exchanges).
Qed.

Lemma btc_usd_round_trip_witness :
  ∃ exch,
    pair_std_to_exchange (load_all distinct_pairs [GEMINI; BITSTAMP])
                         "BTC-USD" BITSTAMP = Ok exch ∧
    pair_exchange_to_std (load_all distinct_pairs [GEMINI; BITSTAMP]) exch =
      Ok (Some "BTC-USD").
Proof.
  apply (btc_usd_round_trip distinct_pairs [GEMINI; BITSTAMP] BITSTAMP).
  - intros ex1 ex2 std1 std2 exch H1 H2 _ _ Hi1 Hi2.
    repeat (apply elem_of_cons in H1 as [->|H1]);
      [| |by apply elem_of_nil in H1];
      (repeat (apply elem_of_cons in H2 as [->|H2]);
         [| |by apply elem_of_nil in H2]);
      vm_compute in Hi1, Hi2;
      repeat (apply elem_of_cons in Hi1 as [Hi1|Hi1]);
      try (by apply elem_of_nil in Hi1);
      repeat (apply elem_of_cons in Hi2 as [Hi2|Hi2]);
      try (by apply elem_of_nil in Hi2);
      congruence.
  - vm_compute. eauto.
Defined.

(** GEMINI registers BTC-USD as BTCUSD, then HITBTC registers BTC-USDT
    under the same spelling: the reverse table keeps the later entry, and
    BTC-USD comes back from GEMINI as BTC-USDT. *)
Lemma btc_usd_round_trip_clash :
  registered (load_all clashing_pairs [GEMINI; HITBTC]) "BTC-USD" GEMINI ∧
  pair_std_to_exchange (load_all clashing_pairs [GEMINI; HITBTC])
                       "BTC-USD" GEMINI = Ok "BTCUSD" ∧
  pair_exchange_to_std (load_all clashing_pairs [GEMINI; HITBTC]) "BTCUSD" =
    Ok (Some "BTC-USDT").
Proof.
  split; [vm_compute; eauto|]. split; vm_compute; reflexivity.
Qed.

(** C9, at the empty string.  With nothing registered under the empty
    spelling (here: nothing registered at all), [pair[0]] raises
    [IndexError] instead of the function returning [None]. *)
Theorem pair_exchange_to_std_empty_raises :
  pair_exchange_to_std initial "" = Raise IndexError.
Proof. reflexivity. Qed.

(** Away from the empty string the function returns: the registered
    canonical pair, else the rest of a string that starts with [f], else
    [None]. *)
Lemma pair_exchange_to_std_nonempty r c rest :
  pair_exchange_to_std r (String c rest) =
    match _exchange_to_std r !! String c rest with
    | Some std => Ok (Some std)
    | None => if Ascii.eqb c "f" then Ok (Some rest) else Ok None
    end.
Proof. reflexivity. Qed.

(** ** Channels *)

(** C8. A table entry equal to [UNSUPPORTED] makes [feed_to_exchange] log
    one record at error level and raise [UnsupportedDataFeed]; and for
    POLONIEX a [feed] that is not a key of the channel table is handed to
    [pair_std_to_exchange], whose outcome is the outcome of the call:
    nothing is logged and neither the table lookup nor the
    [UNSUPPORTED] test is reached. *)
Theorem feed_to_exchange_unsupported_and_poloniex :
  (∀ (r : registry) (exchange feed : string)
     (per_exchange : gmap string native),
     _feed_to_exchange_map !! feed = Some per_exchange →
     per_exchange !! exchange = Some (NStr UNSUPPORTED) →
     feed_to_exchange r exchange feed =
       ([LogError (not_supported feed exchange)],
        Raise (UnsupportedDataFeed (not_supported feed exchange)))) ∧
  (∀ (r : registry) (feed : string),
     _feed_to_exchange_map !! feed = None →
     feed_to_exchange r POLONIEX feed =
       ([], match pair_std_to_exchange r feed POLONIEX with
            | Ok exch => Ok (NStr exch)
            | Raise e => Raise e
            end)).
Proof.
  split.
  - intros r exchange feed per Hfeed Hentry. unfold feed_to_exchange.
    rewrite (bool_decide_eq_true_2 (is_Some _)) by (rewrite Hfeed; eauto).
    rewrite andb_false_r. unfold getitem. by rewrite Hfeed, Hentry.
  - intros r feed Hfeed. unfold feed_to_exchange.
    rewrite (bool_decide_eq_true_2 (POLONIEX = POLONIEX)) by done.
    rewrite (bool_decide_eq_false_2 (is_Some _))
      by (rewrite Hfeed; by intros [? ?]).
    simpl. by destruct (pair_std_to_exchange r feed POLONIEX).
Qed.

Lemma feed_to_exchange_unsupported_and_poloniex_witness :
  feed_to_exchange initial BITMEX L3_BOOK =
    ([LogError "l3_book is not supported on BITMEX"],
     Raise (UnsupportedDataFeed "l3_book is not supported on BITMEX")) ∧
  feed_to_exchange (load_all poloniex_pairs [POLONIEX]) POLONIEX "BTC-USDT" =
    ([], Ok (NStr "USDT_BTC")).
Proof.
  destruct feed_to_exchange_unsupported_and_poloniex as [Hunsup Hpolo].
  split.
  - eapply (Hunsup initial BITMEX L3_BOOK); vm_compute; reflexivity.
  - rewrite (Hpolo (load_all poloniex_pairs [POLONIEX]) "BTC-USDT").
    + vm_compute. reflexivity.
    + vm_compute. reflexivity.
Defined.

(** ** Timestamps *)

(** C7, as the code has it.  The division is a float division: for a
    millisecond exchange 1500000000123 gives the double nearest to
    1500000000.123 (what the float literal denotes), for BITSTAMP
    1500000000123456 gives the double nearest to 1500000000.123456, and
    an exchange outside the three groups gets its input back unchanged,
    whatever it is. *)
Theorem timestamp_normalize_units :
  ∀ (pd_timestamp : ts_value → result ts_value),
    (∀ exchange,
       exchange ∈ millis_exchanges →
       timestamp_normalize pd_timestamp exchange (TsInt 1500000000123) =
         Ok (TsFloat 1500000000.123%float)) ∧
    timestamp_normalize pd_timestamp BITSTAMP (TsInt 1500000000123456) =
      Ok (TsFloat 1500000000.123456%float) ∧
    (∀ exchange ts,
       exchange ∉ (iso_exchanges ++ millis_exchanges ++ micros_exchanges)%list →
       timestamp_normalize pd_timestamp exchange ts = Ok ts).
Proof.
  intros pd. split; [|split].
  - intros exchange Hin. unfold millis_exchanges in Hin.
    repeat (apply elem_of_cons in Hin as [->|Hin]);
      try (by apply elem_of_nil in Hin); vm_compute; reflexivity.
  - vm_compute. reflexivity.
  - intros exchange ts Hnot. unfold timestamp_normalize, in_set.
    rewrite !bool_decide_eq_false_2; [done|..];
      intros Hin; apply Hnot; rewrite !elem_of_app; auto.
Qed.

Lemma timestamp_normalize_units_witness :
  timestamp_normalize no_pandas HUOBI (TsInt 1500000000123) =
    Ok (TsFloat 1500000000.123%float) ∧
  timestamp_normalize no_pandas KRAKEN (TsStr "2018-05-19T12:25:26.632Z") =
    Ok (TsStr "2018-05-19T12:25:26.632Z").
Proof.
  destruct (timestamp_normalize_units no_pandas) as (Hms & _ & Hid).
  split.
  - apply Hms. apply elem_of_cons. by left.
  - apply Hid. intros Hin. vm_compute in Hin.
    repeat (apply elem_of_cons in Hin as [Hin|Hin]; [discriminate Hin|]).
    by apply elem_of_nil in Hin.
Defined.

(** The float returned for 1500000000123 milliseconds is
    6291456000515899 / 2^22, which is not 1500000000123 / 1000. *)
Lemma millis_result_is_not_the_decimal :
  timestamp_normalize no_pandas HUOBI (TsInt 1500000000123) =
    Ok (TsFloat 1500000000.123%float) ∧
  float_value 1500000000.123%float = Some (6291456000515899 # 4194304) ∧
  ¬ (6291456000515899 # 4194304 == 1500000000123 # 1000)%Q.
Proof.
  split; [vm_compute; reflexivity|]. split; [vm_compute; reflexivity|].
  intros H. unfold Qeq in H. simpl in H. lia.
Qed.
End StandardsSpec.

(** * Further properties of the order-book handler *)

Module BitmexMore.
Import Defines Bitmex BookNotions MoreNotions Scenario MoreScenario BitmexSpec.

(** ** [_reset] *)

Lemma reset_fold_pairs ps s : pairs (foldl reset_pair s ps) = pairs s.
Proof.
  revert s. induction ps as [|p ps IH]; intros s; [done|].
  simpl. by rewrite IH.
Qed.

Lemma reset_pairs s : pairs (_reset s) = pairs s.
Proof. unfold _reset. by rewrite reset_fold_pairs. Qed.

Lemma session_eq s s' :
  pairs s = pairs s' → partial_received s = partial_received s' →
  l2_book s = l2_book s' → order_id s = order_id s' → s = s'.
Proof. destruct s, s'. simpl. by intros -> -> -> ->. Qed.

(** X1. Resetting twice is resetting once: a second [_reset] changes
    nothing. *)
Theorem reset_idempotent : ∀ s : session, _reset (_reset s) = _reset s.
Proof.
  intros s. apply session_eq.
  - by rewrite !reset_pairs.
  - by rewrite !reset_partial_received.
  - apply map_eq. intros p. rewrite (reset_l2_book (_reset s)).
    rewrite reset_pairs. case_bool_decide as Hp; [|done].
    rewrite reset_l2_book. by rewrite bool_decide_eq_true_2.
  - apply map_eq. intros p. rewrite !reset_order_id. by rewrite reset_pairs.
Qed.

Lemma reset_subscribed s p :
  p ∈ pairs s →
  l2_book (_reset s) !! p = Some (Sides ∅ ∅) ∧
  order_id (_reset s) !! p = Some (Sides ∅ ∅).
Proof.
  intros Hp. rewrite reset_l2_book, reset_order_id.
  by rewrite bool_decide_eq_true_2.
Qed.

(** X2. After [_reset] the flag is down, the index holds exactly the pairs
    of the feed, each with an empty index, and their books are empty; the
    book of a pair that is not (or no longer) among the pairs of the feed
    is left as it was. *)
Theorem reset_state :
  ∀ (s : session) (p : string),
    partial_received (_reset s) = false ∧
    pairs (_reset s) = pairs s ∧
    (p ∈ pairs s →
       l2_book (_reset s) !! p = Some (Sides ∅ ∅) ∧
       order_id (_reset s) !! p = Some (Sides ∅ ∅)) ∧
    (p ∉ pairs s →
       l2_book (_reset s) !! p = l2_book s !! p ∧
       order_id (_reset s) !! p = None).
Proof.
  intros s p. rewrite reset_partial_received, reset_pairs.
  rewrite reset_l2_book, reset_order_id.
  split; [done|]. split; [done|]. split; intros Hp.
  - by rewrite bool_decide_eq_true_2.
  - by rewrite bool_decide_eq_false_2.
Qed.

Lemma reset_state_witness :
  l2_book (_reset xbt_session) !! "XBTUSD" = Some (Sides ∅ ∅) ∧
  order_id (_reset xbt_session) !! "XBTUSD" = Some (Sides ∅ ∅).
Proof.
  apply (reset_state xbt_session "XBTUSD").
  simpl. apply elem_of_cons. by left.
Defined.

(** ** What the loops leave alone *)

Lemma stable_refl syms s : stable syms s s.
Proof. by repeat split. Qed.

Lemma stable_trans syms s1 s2 s3 :
  stable syms s1 s2 → stable syms s2 s3 → stable syms s1 s3.
Proof.
  intros (Hp & Hb & Hi & Ho) (Hp' & Hb' & Hi' & Ho').
  split; [congruence|]. split; [|split].
  - intros q. by rewrite Hb'.
  - intros q. by rewrite Hi'.
  - intros q Hq. destruct (Ho' q Hq) as [-> ->]. by apply Ho.
Qed.

Lemma preserves_ret {A} R (a : A) : (∀ s, R s s) → preserves R (ret a).
Proof. intros HR s. apply HR. Qed.

Lemma preserves_item {A} R (o : option A) :
  (∀ s, R s s) → preserves R (item o).
Proof. intros HR s. unfold item. destruct o; apply HR. Qed.

Lemma preserves_bind {A B} R (m : M A) (k : A → M B) :
  (∀ s1 s2 s3, R s1 s2 → R s2 s3 → R s1 s3) →
  preserves R m → (∀ a, preserves R (k a)) → preserves R (bind m k).
Proof.
  intros Htrans Hm Hk s. unfold bind. specialize (Hm s).
  destruct (m s) as [s' [a|e]]; simpl in *; [|done].
  eapply Htrans; [done|]. apply Hk.
Qed.

Lemma stable_write_book syms s p book :
  p ∈ syms → is_Some (l2_book s !! p) →
  stable syms s (Session (pairs s) (partial_received s)
                         (<[p := book]> (l2_book s)) (order_id s)).
Proof.
  intros Hp Hsome. split; [done|]. split; [|split]; simpl.
  - intros q. rewrite lookup_insert_is_Some'.
    split; [intros [<-|?]; done|auto].
  - done.
  - intros q Hq. split; [|done]. apply lookup_insert_ne. by intros <-.
Qed.

Lemma stable_write_index syms s p index :
  p ∈ syms → is_Some (order_id s !! p) →
  stable syms s (Session (pairs s) (partial_received s) (l2_book s)
                         (<[p := index]> (order_id s))).
Proof.
  intros Hp Hsome. split; [done|]. split; [|split]; simpl.
  - done.
  - intros q. rewrite lookup_insert_is_Some'.
    split; [intros [<-|?]; done|auto].
  - intros q Hq. split; [done|]. apply lookup_insert_ne. by intros <-.
Qed.

Lemma stable_set_level syms p sd price size :
  p ∈ syms → preserves (stable syms) (set_level p sd price size).
Proof.
  intros Hp s. unfold set_level.
  destruct (l2_book s !! p) eqn:Hb; [|apply stable_refl].
  apply stable_write_book; [done|]. by rewrite Hb.
Qed.

Lemma stable_del_level syms p sd price :
  p ∈ syms → preserves (stable syms) (del_level p sd price).
Proof.
  intros Hp s. unfold del_level.
  destruct (l2_book s !! p) as [book|] eqn:Hb; [|apply stable_refl].
  destruct (at_side sd book !! price); [|apply stable_refl].
  apply stable_write_book; [done|]. by rewrite Hb.
Qed.

Lemma stable_get_order syms p sd oid :
  preserves (stable syms) (get_order p sd oid).
Proof.
  intros s. unfold get_order.
  destruct (order_id s !! p) as [index|]; [|apply stable_refl].
  destruct (at_side sd index !! oid); apply stable_refl.
Qed.

Lemma stable_set_order syms p sd oid price :
  p ∈ syms → preserves (stable syms) (set_order p sd oid price).
Proof.
  intros Hp s. unfold set_order.
  destruct (order_id s !! p) eqn:Hi; [|apply stable_refl].
  apply stable_write_index; [done|]. by rewrite Hi.
Qed.

Lemma stable_del_order syms p sd oid :
  p ∈ syms → preserves (stable syms) (del_order p sd oid).
Proof.
  intros Hp s. unfold del_order.
  destruct (order_id s !! p) as [index|] eqn:Hi; [|apply stable_refl].
  destruct (at_side sd index !! oid); [|apply stable_refl].
  apply stable_write_index; [done|]. by rewrite Hi.
Qed.

Create HintDb stable.
#[local] Hint Resolve stable_refl stable_set_level stable_del_level
  stable_get_order stable_set_order stable_del_order : stable.

Ltac stable_tac :=
  repeat (apply preserves_bind;
          [apply stable_trans
          |first [apply preserves_item; apply stable_refl|auto with stable]
          |intros ?]);
  first [apply preserves_ret; apply stable_refl|auto with stable].

Lemma stable_body a body syms l d :
  body_of a = Some body → e_symbol d ∈ syms →
  preserves (stable syms) (body l d).
Proof.
  unfold body_of. intros Hbody Hd.
  repeat case_match; simplify_eq.
  - unfold insert_entry. stable_tac.
  - unfold update_entry. stable_tac.
  - unfold delete_entry. stable_tac.
Qed.

Lemma stable_for_each a body syms l ds :
  body_of a = Some body → (∀ d, d ∈ ds → e_symbol d ∈ syms) →
  preserves (stable syms) (for_each body l ds).
Proof.
  intros Hbody. revert l. induction ds as [|d ds IH]; intros l Hds s.
  { apply stable_refl. }
  rewrite for_each_cons.
  pose proof (stable_body a body syms l d Hbody
                (Hds d (list_elem_of_here d ds)) s) as Hd.
  destruct (body l d s) as [s' [l'|e]]; simpl in *; [|done].
  eapply stable_trans; [done|]. apply IH.
  intros d' Hd'. apply Hds, elem_of_cons. by right.
Qed.

Lemma stable_flag syms s b :
  stable syms s (Session (pairs s) b (l2_book s) (order_id s)).
Proof. by repeat split. Qed.

Lemma stable_book msg ts s :
  stable (e_symbol <$> data msg) s (_book msg ts s).1.
Proof.
  rewrite book_dispatch. unfold gate.
  assert (∀ s0 forced body,
             body_of (action msg) = Some body →
             stable (e_symbol <$> data msg) s0
               (emit forced ts
                  (for_each body (None, Sides [] []) (data msg) s0)).1)
    as Hloop.
  { intros s0 forced body Hbody. rewrite emit_fst.
    apply (stable_for_each (action msg)); [done|].
    intros d Hd. by apply list_elem_of_fmap_2. }
  destruct (negb (partial_received s)).
  - destruct (negb (is_action msg "partial")); [apply stable_refl|].
    destruct (body_of (action msg)) as [body|] eqn:Hbody.
    + eapply stable_trans; [apply (stable_flag _ s true)|].
      by apply Hloop.
    + apply stable_flag.
  - destruct (body_of (action msg)) as [body|] eqn:Hbody;
      [by apply Hloop|apply stable_refl].
Qed.

(** X3. Whatever the message and however the call ends, [_book] leaves
    the list of pairs as it is, adds and removes no pair of the books or
    of the index, and does not touch the book or the index of a pair that
    no entry of the message names. *)
Theorem book_frame :
  ∀ (msg : message) (timestamp : float) (s : session) (p : string),
    pairs (_book msg timestamp s).1 = pairs s ∧
    (is_Some (l2_book (_book msg timestamp s).1 !! p) ↔
       is_Some (l2_book s !! p)) ∧
    (is_Some (order_id (_book msg timestamp s).1 !! p) ↔
       is_Some (order_id s !! p)) ∧
    (p ∉ e_symbol <$> data msg →
       l2_book (_book msg timestamp s).1 !! p = l2_book s !! p ∧
       order_id (_book msg timestamp s).1 !! p = order_id s !! p).
Proof.
  intros msg ts s p.
  destruct (stable_book msg ts s) as (Hp & Hb & Hi & Ho). eauto.
Qed.

Lemma book_frame_witness :
  l2_book (_book xbt_update 2%float
                 (Session ["XBTUSD"; "ETHUSD"] true ∅ ∅)).1 !! "ETHUSD" =
    (∅ : gmap string (sides (gmap Qc Qc))) !! "ETHUSD" ∧
  order_id (_book xbt_update 2%float
                  (Session ["XBTUSD"; "ETHUSD"] true ∅ ∅)).1 !! "ETHUSD" =
    (∅ : gmap string (sides (gmap Z Qc))) !! "ETHUSD".
Proof.
  apply (book_frame xbt_update 2%float
           (Session ["XBTUSD"; "ETHUSD"] true ∅ ∅) "ETHUSD").
  simpl. intros Hin. apply list_elem_of_singleton in Hin. discriminate Hin.
Defined.

(** ** Updates and the index *)

Lemma update_entry_index l d s :
  order_id (update_entry l d s).1 = order_id s.
Proof.
  unfold update_entry, bind, item, get_order, set_level, set_order, ret.
  destruct (e_size d) as [size|]; [|done].
  destruct (order_id s !! e_symbol d) as [index|] eqn:Hi; [|done].
  destruct (at_side (side_of d) index !! e_id d) as [price|] eqn:Ho; [|done].
  destruct (l2_book s !! e_symbol d) as [book|]; [|done].
  simpl. rewrite Hi. simpl.
  by rewrite (insert_id _ _ _ Ho), set_side_same, (insert_id _ _ _ Hi).
Qed.

Lemma for_each_update_index l ds s :
  order_id (for_each update_entry l ds s).1 = order_id s.
Proof.
  revert l s. induction ds as [|d ds IH]; intros l s; [done|].
  rewrite for_each_cons. pose proof (update_entry_index l d s) as Hd.
  destruct (update_entry l d s) as [s' [l'|e]]; simpl in *; [|done].
  by rewrite IH.
Qed.

(** X4. An update message never changes the order-id index, whatever its
    entries and whether the call emits, raises or is discarded: an update
    moves no order to another price. *)
Theorem update_keeps_index :
  ∀ (msg : message) (timestamp : float) (s : session),
    action msg = "update" →
    order_id (_book msg timestamp s).1 = order_id s.
Proof.
  intros msg ts s Ha. rewrite book_dispatch. unfold gate, is_action.
  rewrite Ha. change (body_of "update") with (Some update_entry).
  destruct (partial_received s); simpl; [|done].
  by rewrite emit_fst, for_each_update_index.
Qed.

Lemma update_keeps_index_witness :
  order_id (_book desync_update 2%float xbt_session).1 = order_id xbt_session.
Proof. apply update_keeps_index. reflexivity. Defined.

(** ** The shape of an emission *)

Lemma body_shape a body l d s s' l' :
  body_of a = Some body → body l d s = (s', Ok l') →
  l'.1 = Some (e_symbol d) ∧ ∃ sd x, l'.2 = append sd x l.2.
Proof.
  unfold body_of. intros Hbody.
  repeat case_match; simplify_eq.
  - unfold insert_entry, bind, item, set_level, set_order, ret.
    repeat case_match; intros; simplify_eq/=; eauto.
  - unfold update_entry, bind, item, get_order, set_level, set_order, ret.
    repeat case_match; intros; simplify_eq/=; eauto.
  - unfold delete_entry, bind, get_order, del_order, del_level, ret.
    repeat case_match; intros; simplify_eq/=; eauto.
Qed.

Lemma append_length sd x (dl : delta) :
  (length (on_bid (append sd x dl)) + length (on_ask (append sd x dl)) =
   S (length (on_bid dl) + length (on_ask dl)))%nat.
Proof. destruct sd, dl; simpl; rewrite length_app; simpl; lia. Qed.

Lemma for_each_shape a body l ds s s' l' :
  body_of a = Some body → for_each body l ds s = (s', Ok l') →
  l'.1 = from_option (λ d, Some (e_symbol d)) l.1 (last ds) ∧
  (length (on_bid l'.2) + length (on_ask l'.2) =
   length (on_bid l.2) + length (on_ask l.2) + length ds)%nat.
Proof.
  intros Hbody. revert l s. induction ds as [|d ds IH]; intros l s.
  { intros [= <- <-]. simpl. split; [done|lia]. }
  rewrite for_each_cons. destruct (body l d s) as [s1 [l1|e]] eqn:Hd; [|done].
  intros Hrest. destruct (IH _ _ Hrest) as [Hp Hlen].
  destruct (body_shape _ _ _ _ _ _ _ Hbody Hd) as (Hp1 & sd & x & Hdl).
  split.
  - rewrite Hp, Hp1. destruct ds as [|d' ds]; [done|].
    rewrite last_cons_cons.
    destruct (last (d' :: ds)) eqn:Hl; [done|]. by apply last_None in Hl.
  - rewrite Hlen, Hdl, append_length. simpl. lia.
Qed.

(** X5. When [_book] calls [book_callback], the pair it passes is the
    symbol of the last entry of the message ([None] for an empty message),
    whatever symbols the earlier entries carry; the channel is [L2_BOOK];
    and the two sides of the delta together hold exactly one item per
    entry. *)
Theorem emission_shape :
  ∀ (msg : message) (timestamp : float) (s : session) (e : emission),
    (_book msg timestamp s).2 = Emitted e →
    em_pair e = e_symbol <$> last (data msg) ∧
    em_channel e = L2_BOOK ∧
    em_timestamp e = timestamp ∧
    (length (on_bid (em_delta e)) + length (on_ask (em_delta e)) =
     length (data msg))%nat.
Proof.
  intros msg ts s e. rewrite book_dispatch.
  destruct (gate msg s) as [[s1 forced]|]; [|done].
  destruct (body_of (action msg)) as [body|] eqn:Hbody; [|done].
  destruct (for_each body (None, Sides [] []) (data msg) s1)
    as [s' [[p dl]|x]] eqn:Hloop; simpl; [|done].
  intros [= <-]. simpl.
  destruct (for_each_shape _ _ _ _ _ _ _ Hbody Hloop) as [Hp Hlen].
  simpl in *. repeat split; [|done].
  rewrite Hp. by destruct (last (data msg)).
Qed.

Lemma emission_shape_witness :
  em_pair (Emission (Some "XBTUSD") L2_BOOK true
                    (Sides [(dec 100, dec 5)] []) 1%float) =
    e_symbol <$> last (data xbt_partial).
Proof.
  apply (emission_shape xbt_partial 1%float (_reset xbt_feed)).
  vm_compute. reflexivity.
Defined.

(** ** The delta of a partial or insert *)

Lemma levels_on_cons sd d ds price size :
  e_price d = Some price → e_size d = Some size →
  levels_on sd (d :: ds) =
    if decide (side_of d = sd) then (price, size) :: levels_on sd ds
    else levels_on sd ds.
Proof.
  intros Hp Hs. unfold levels_on. simpl.
  case_decide; [|done]. by rewrite Hp, Hs.
Qed.

Lemma insertable_after_write s d book index d' :
  insertable s d' →
  insertable (Session (pairs s) (partial_received s)
                      (<[e_symbol d := book]> (l2_book s))
                      (<[e_symbol d := index]> (order_id s))) d'.
Proof.
  intros (Hp & Hs & Hb & Hi). repeat split; [done..| |]; simpl;
    apply lookup_insert_is_Some'; auto.
Qed.

Lemma for_each_insert_delta ds :
  ∀ l s, Forall (insertable s) ds →
    ∃ s', for_each insert_entry l ds s =
      (s', Ok (from_option (λ d, Some (e_symbol d)) l.1 (last ds),
               Sides (on_bid l.2 ++ levels_on BID ds)%list
                     (on_ask l.2 ++ levels_on ASK ds)%list)).
Proof.
  induction ds as [|d ds IH]; intros l s Hall.
  { exists s. simpl. unfold ret. rewrite !app_nil_r. by destruct l as [p [b a]]. }
  apply Forall_cons in Hall as [Hd Hrest].
  destruct Hd as ([price Hp] & [size Hs] & [book Hb] & [index Hi]).
  rewrite for_each_cons.
  rewrite (insert_entry_ok _ _ _ _ _ _ _ Hp Hs Hb Hi).
  edestruct IH as [s' Hs']; last (exists s'; rewrite Hs').
  { eapply Forall_impl; [exact Hrest|]. intros d'.
    apply insertable_after_write. }
  f_equal. f_equal. cbn [fst snd]. f_equal.
  - destruct ds as [|d' ds]; [done|]. rewrite last_cons_cons.
    destruct (last (d' :: ds)) eqn:Hl; [done|]. by apply last_None in Hl.
  - rewrite !(levels_on_cons _ _ _ _ _ Hp Hs).
    destruct (side_of d), l as [p [b a]]; simpl;
      rewrite <- ?app_assoc; done.
Qed.

(** X6. A partial or insert message that passes the gate, whose entries
    all carry a price and a size and name pairs that the feed holds a book
    and an index for, never raises: it calls [book_callback] once, and the
    bid and ask sides of the delta are the [(price, size)] of its Buy
    entries and of its other entries, in message order. *)
Theorem insert_delta :
  ∀ (msg : message) (timestamp : float) (s : session),
    action msg = "partial" ∨
      (action msg = "insert" ∧ partial_received s = true) →
    Forall (insertable s) (data msg) →
    (_book msg timestamp s).2 =
      Emitted (Emission (e_symbol <$> last (data msg)) L2_BOOK
                        (negb (partial_received s))
                        (Sides (levels_on BID (data msg))
                               (levels_on ASK (data msg)))
                        timestamp).
Proof.
  intros msg ts s Hact Hall. rewrite book_dispatch.
  assert (body_of (action msg) = Some insert_entry) as ->.
  { by destruct Hact as [->|[-> _]]. }
  assert (∃ s1, gate msg s = Some (s1, negb (partial_received s)) ∧
                Forall (insertable s1) (data msg)) as (s1 & -> & Hall1).
  { unfold gate, is_action. destruct (partial_received s) eqn:Hp; simpl.
    - by exists s.
    - destruct Hact as [->|[_ [=]]]. simpl. eexists. split; [done|].
      eapply Forall_impl; [exact Hall|]. by intros d (? & ? & ? & ?). }
  destruct (for_each_insert_delta (data msg) (None, Sides [] []) s1 Hall1)
    as [s' ->].
  simpl. by destruct (last (data msg)).
Qed.

Lemma insert_delta_witness :
  (_book two_sided_partial 1%float (_reset xbt_feed)).2 =
    Emitted (Emission (Some "XBTUSD") L2_BOOK true
                      (Sides [(dec 100, dec 5)] [(dec 102, dec 7)])
                      1%float).
Proof.
  apply (insert_delta two_sided_partial 1%float (_reset xbt_feed)).
  - by left.
  - repeat apply Forall_cons_2; [| |apply Forall_nil_2];
      (repeat split; [by eexists|by eexists| |]; vm_compute; by eexists).
Defined.

(** ** The gate *)

Lemma book_partial_flag msg ts s :
  action msg = "partial" → partial_received (_book msg ts s).1 = true.
Proof.
  intros Ha. destruct (partial_received s) eqn:Hp.
  - by apply book_keeps_flag.
  - rewrite book_dispatch, (gate_first _ _ Hp Ha), Ha.
    change (body_of "partial") with (Some insert_entry). cbv iota beta.
    rewrite emit_fst, for_each_flag; [done|]. apply insert_entry_flag.
Qed.

(** X7. A partial sets [partial_received] however the call ends, also
    when an entry raises and nothing is emitted; from then on the deltas
    of the stream are processed and no emission is forced.  A first
    snapshot that fails is therefore never followed by a forced emission
    until the next reset. *)
Theorem partial_opens_gate_even_if_it_raises :
  ∀ (msg : message) (timestamp : float) (s : session),
    action msg = "partial" →
    partial_received (_book msg timestamp s).1 = true ∧
    ∀ (msgs : list (message * float)) (i : nat) (e : emission),
      (run (_book msg timestamp s).1 msgs).2 !! i = Some (Emitted e) →
      em_forced e = false.
Proof.
  intros msg ts s Ha. split; [by apply book_partial_flag|].
  intros msgs i e. apply run_open_not_forced. by apply book_partial_flag.
Qed.

Lemma partial_opens_gate_even_if_it_raises_witness :
  (_book eth_partial 1%float (_reset xbt_feed)).2 = Raised KeyError ∧
  partial_received (_book eth_partial 1%float (_reset xbt_feed)).1 = true.
Proof.
  split; [vm_compute; reflexivity|].
  apply (partial_opens_gate_even_if_it_raises
           eth_partial 1%float (_reset xbt_feed)).
  reflexivity.
Defined.

(** X8. A stream that holds no partial does nothing to a session that
    has not received one: every message is discarded, nothing is emitted
    or raised, and the session at the end is the session at the start. *)
Theorem stream_without_partial :
  ∀ (s : session) (msgs : list (message * float)),
    partial_received s = false →
    Forall (λ m, action m.1 ≠ "partial") msgs →
    run s msgs = (s, replicate (length msgs) Discarded).
Proof.
  intros s msgs Hp. induction msgs as [|[msg ts] rest IH]; intros Hall.
  { done. }
  apply Forall_cons in Hall as [Ha Hrest]. simpl in Ha.
  rewrite run_cons, book_dispatch, (gate_closed _ _ Hp Ha). simpl.
  by rewrite (IH Hrest).
Qed.

Lemma stream_without_partial_witness :
  run (_reset xbt_feed) [(xbt_update, 1%float); (xbt_delete, 2%float)] =
    (_reset xbt_feed, [Discarded; Discarded]).
Proof.
  apply (stream_without_partial (_reset xbt_feed)
           [(xbt_update, 1%float); (xbt_delete, 2%float)]).
  - reflexivity.
  - repeat apply Forall_cons_2; [| |apply Forall_nil_2]; discriminate.
Defined.

(** ** Insert and delete *)

Lemma set_side_twice {A} sd (a b : A) d :
  set_side sd a (set_side sd b d) = set_side sd a d.
Proof. by destruct sd, d. Qed.

Lemma at_set_side_eq {A} sd (a : A) d : at_side sd (set_side sd a d) = a.
Proof. by destruct sd, d. Qed.

(** X9. Insert then delete is a round trip: on a session past its first
    partial, inserting an order with a new id at a price that is not yet a
    level of its side, then deleting that id, emits twice and leaves the
    session (books and index) exactly as it was. *)
Theorem insert_delete_round_trip :
  ∀ (s : session) (d : entry) (price size : Qc)
    (book : sides (gmap Qc Qc)) (index : sides (gmap Z Qc))
    (t1 t2 : float),
    partial_received s = true →
    e_price d = Some price →
    e_size d = Some size →
    l2_book s !! e_symbol d = Some book →
    order_id s !! e_symbol d = Some index →
    at_side (side_of d) book !! price = None →
    at_side (side_of d) index !! e_id d = None →
    run s [(Message "insert" [d], t1); (Message "delete" [d], t2)] =
      (s, [Emitted (Emission (Some (e_symbol d)) L2_BOOK false
                     (append (side_of d) (price, size) (Sides [] [])) t1);
           Emitted (Emission (Some (e_symbol d)) L2_BOOK false
                     (append (side_of d) (price, Q2Qc 0) (Sides [] [])) t2)]).
Proof.
  intros s d price size book index t1 t2 Hflag Hp Hs Hb Hi Hnew Hfresh.
  rewrite run_cons.
  erewrite (book_loop (Message "insert" [d]) t1);
    [|by apply gate_open|reflexivity].
  cbn [data]. rewrite for_each_cons.
  rewrite (insert_entry_ok _ _ _ _ _ _ _ Hp Hs Hb Hi).
  cbn [for_each ret emit fst snd]. rewrite run_cons.
  erewrite (book_loop (Message "delete" [d]) t2);
    [|by apply gate_open|reflexivity].
  cbn [data]. rewrite for_each_cons.
  erewrite delete_entry_ok;
    [|apply lookup_insert_eq|by rewrite at_set_side_eq, lookup_insert_eq
     |apply lookup_insert_eq
     |rewrite at_set_side_eq, lookup_insert_eq; by eexists].
  cbn [for_each ret emit fst snd run pairs partial_received l2_book order_id].
  f_equal. destruct s as [ps pr bk ix]. simpl in *. subst pr.
  rewrite !insert_insert_eq, !set_side_twice, !at_set_side_eq.
  rewrite !delete_insert_id by done. rewrite !set_side_same.
  by rewrite !insert_id by done.
Qed.

Lemma insert_delete_round_trip_witness :
  run xbt_session
      [(Message "insert" [xbt_insert_entry], 2%float);
       (Message "delete" [xbt_insert_entry], 3%float)] =
    (xbt_session,
     [Emitted (Emission (Some "XBTUSD") L2_BOOK false
                        (Sides [(dec 101, dec 4)] []) 2%float);
      Emitted (Emission (Some "XBTUSD") L2_BOOK false
                        (Sides [(dec 101, dec 0)] []) 3%float)]).
Proof.
  apply (insert_delete_round_trip xbt_session xbt_insert_entry
           (dec 101) (dec 4)
           (Sides {[dec 100 := dec 5]} ∅) (Sides {[1 := dec 100]} ∅)).
  all: vm_compute; reflexivity.
Defined.

Lemma delete_entry_done l d s s' l' :
  delete_entry l d s = (s', Ok l') →
  partial_received s' = partial_received s ∧
  index_lookup s' (e_symbol d) (side_of d) (e_id d) = None.
Proof.
  unfold delete_entry, bind, get_order, del_order, del_level, ret.
  destruct (order_id s !! e_symbol d) as [index|] eqn:Hi; [|done].
  destruct (at_side (side_of d) index !! e_id d) as [price|] eqn:Ho; [|done].
  simpl. rewrite Hi, Ho. simpl.
  destruct (l2_book s !! e_symbol d) as [book|]; [|done].
  destruct (at_side (side_of d) book !! price); [|done].
  simpl. intros [= <- _]. split; [done|].
  unfold index_lookup. simpl. rewrite lookup_insert_eq. simpl.
  by rewrite at_set_side_eq, lookup_delete_eq.
Qed.

(** X10. Deleting the same order twice raises: once a delete message for
    an id has been processed and emitted, the same message again ends
    with [KeyError], emits nothing and leaves the session as the first
    delete left it. *)
Theorem delete_twice_raises :
  ∀ (s s' : session) (d : entry) (t1 t2 : float) (e : emission),
    partial_received s = true →
    _book (Message "delete" [d]) t1 s = (s', Emitted e) →
    _book (Message "delete" [d]) t2 s' = (s', Raised KeyError).
Proof.
  intros s s' d t1 t2 e Hflag.
  erewrite (book_loop (Message "delete" [d]) t1);
    [|by apply gate_open|reflexivity].
  cbn [data]. rewrite for_each_cons.
  destruct (delete_entry (None, Sides [] []) d s) as [s1 [l1|x]] eqn:Hdel;
    [|done].
  cbn [for_each ret emit]. destruct l1 as [p dl]. intros [= <- _].
  destruct (delete_entry_done _ _ _ _ _ Hdel) as [Hflag' Hgone].
  erewrite (book_loop (Message "delete" [d]) t2);
    [|apply gate_open; congruence|reflexivity].
  cbn [data]. rewrite for_each_cons.
  by rewrite (delete_entry_unknown _ _ _ Hgone).
Qed.

Lemma delete_twice_raises_witness :
  _book (Message "delete" [Entry "XBTUSD" "Buy" 1 None None]) 3%float
        (_book xbt_delete 2%float xbt_session).1 =
    ((_book xbt_delete 2%float xbt_session).1, Raised KeyError).
Proof.
  apply (delete_twice_raises xbt_session _
           (Entry "XBTUSD" "Buy" 1 None None) 2%float 3%float
           (Emission (Some "XBTUSD") L2_BOOK false
                     (Sides [(dec 100, dec 0)] []) 2%float)).
  - reflexivity.
  - vm_compute. reflexivity.
Defined.

(** ** Levels *)

Lemma level_write s pair book pair' sd price :
  level (Session (pairs s) (partial_received s)
                 (<[pair := book]> (l2_book s)) (order_id s))
        pair' sd price =
    if decide (pair = pair') then at_side sd book !! price
    else level s pair' sd price.
Proof.
  unfold level. simpl. rewrite lookup_insert. by case_decide.
Qed.

Lemma update_entry_levels l d s :
  index_in_book s →
  ∀ pair sd price,
    is_Some (level (update_entry l d s).1 pair sd price) ↔
    is_Some (level s pair sd price).
Proof.
  intros Hinv pair sd price.
  destruct (e_size d) as [size|] eqn:Hs;
    [|unfold update_entry, bind, item; by rewrite Hs].
  destruct (index_lookup s (e_symbol d) (side_of d) (e_id d))
    as [price0|] eqn:Hlook;
    [|by rewrite update_entry_unknown].
  pose proof (Hinv _ _ _ _ Hlook) as [size0 Hlev].
  unfold index_lookup in Hlook. unfold level in Hlev.
  destruct (order_id s !! e_symbol d) as [index|] eqn:Hi; [|done].
  destruct (l2_book s !! e_symbol d) as [book|] eqn:Hb; [|done].
  simpl in Hlook, Hlev.
  rewrite (update_entry_ok _ _ _ _ _ _ _ Hs Hi Hlook Hb). cbn [fst].
  rewrite level_write. case_decide as Hp; [subst pair|done].
  unfold level. rewrite Hb. simpl. rewrite at_set_side.
  case_decide as Hsd; [subst sd|done].
  rewrite lookup_insert_is_Some'. split; [|auto].
  intros [<-|?]; [eauto|done].
Qed.

Lemma update_entry_keeps_inv l d s :
  index_in_book s → index_in_book (update_entry l d s).1.
Proof.
  intros Hinv pair sd oid price. unfold index_lookup.
  rewrite update_entry_index. intros Hlook.
  apply (update_entry_levels l d s Hinv). by apply (Hinv pair sd oid).
Qed.

Lemma for_each_update_levels l ds s :
  index_in_book s →
  ∀ pair sd price,
    is_Some (level (for_each update_entry l ds s).1 pair sd price) ↔
    is_Some (level s pair sd price).
Proof.
  revert l s. induction ds as [|d ds IH]; intros l s Hinv pair sd price;
    [done|].
  rewrite for_each_cons.
  pose proof (update_entry_levels l d s Hinv pair sd price) as Hd.
  pose proof (update_entry_keeps_inv l d s Hinv) as Hinv'.
  destruct (update_entry l d s) as [s' [l'|e]]; simpl in *; [|done].
  by rewrite IH.
Qed.

(** X24. An update changes sizes only: when every price that the index
    holds is a level of the book, an update message creates no price level
    and removes none, on any pair and side, however the call ends. *)
Theorem update_keeps_levels :
  ∀ (msg : message) (timestamp : float) (s : session),
    action msg = "update" →
    index_in_book s →
    ∀ pair sd price,
      is_Some (level (_book msg timestamp s).1 pair sd price) ↔
      is_Some (level s pair sd price).
Proof.
  intros msg ts s Ha Hinv pair sd price.
  rewrite book_dispatch. unfold gate, is_action. rewrite Ha.
  change (body_of "update") with (Some update_entry).
  destruct (partial_received s); simpl; [|done].
  rewrite emit_fst. by apply for_each_update_levels.
Qed.

Lemma update_keeps_levels_witness :
  is_Some (level (_book desync_update 2%float xbt_session).1
                 "XBTUSD" BID (dec 100)) ↔
  is_Some (level xbt_session "XBTUSD" BID (dec 100)).
Proof.
  apply (update_keeps_levels desync_update 2%float xbt_session).
  - reflexivity.
  - intros pair sd oid price Hlook. unfold index_lookup in Hlook.
    assert (order_id xbt_session =
            {["XBTUSD" := Sides {[1 := dec 100]} ∅]}) as Hix
      by (vm_compute; reflexivity).
    rewrite Hix in Hlook.
    destruct (decide (pair = "XBTUSD")) as [->|Hp];
      [|by rewrite lookup_singleton_ne in Hlook].
    rewrite lookup_singleton_eq in Hlook.
    destruct sd; simpl in Hlook; [|by rewrite lookup_empty in Hlook].
    apply lookup_singleton_Some in Hlook as [_ <-].
    vm_compute. eauto.
Defined.

Lemma grows_refl s : grows s s.
Proof. by split. Qed.

Lemma grows_trans s1 s2 s3 : grows s1 s2 → grows s2 s3 → grows s1 s3.
Proof. intros [H1 H2] [H3 H4]. split; eauto. Qed.

Lemma grows_set_level p sd price size :
  preserves grows (set_level p sd price size).
Proof.
  intros s. unfold set_level.
  destruct (l2_book s !! p) as [book|] eqn:Hb; [|apply grows_refl].
  split; [|done]. intros pair sd' price'. cbn [fst]. rewrite level_write.
  case_decide as Hp; [subst pair|done].
  unfold level. rewrite Hb. simpl. rewrite at_set_side.
  case_decide; [subst sd'|done].
  intros ?. apply lookup_insert_is_Some'. auto.
Qed.

Lemma grows_set_order p sd oid price :
  preserves grows (set_order p sd oid price).
Proof.
  intros s. unfold set_order.
  destruct (order_id s !! p) as [index|] eqn:Hi; [|apply grows_refl].
  split; [done|]. intros pair sd' oid'. unfold index_lookup. simpl.
  rewrite lookup_insert. case_decide as Hp; [subst pair|done].
  rewrite Hi. simpl. rewrite at_set_side.
  case_decide; [subst sd'|done].
  intros ?. apply lookup_insert_is_Some'. auto.
Qed.

Lemma grows_insert_entry l d : preserves grows (insert_entry l d).
Proof.
  unfold insert_entry.
  repeat (apply preserves_bind;
          [apply grows_trans
          |first [apply preserves_item; apply grows_refl
                 |apply grows_set_level|apply grows_set_order]
          |intros ?]).
  apply preserves_ret, grows_refl.
Qed.

Lemma grows_for_each_insert l ds :
  preserves grows (for_each insert_entry l ds).
Proof.
  revert l. induction ds as [|d ds IH]; intros l s; [apply grows_refl|].
  rewrite for_each_cons. pose proof (grows_insert_entry l d s) as Hd.
  destruct (insert_entry l d s) as [s' [l'|e]]; simpl in *; [|done].
  eapply grows_trans; [done|]. apply IH.
Qed.

(** X25. A partial or insert message only adds: no price level and no
    indexed id of the session disappears, however the call ends.  In
    particular a partial that arrives after the first one does not replace
    the book; the levels that it does not name stay. *)
Theorem partial_never_removes :
  ∀ (msg : message) (timestamp : float) (s : session),
    action msg = "partial" ∨ action msg = "insert" →
    grows s (_book msg timestamp s).1.
Proof.
  intros msg ts s Ha. rewrite book_dispatch.
  assert (body_of (action msg) = Some insert_entry) as ->.
  { by destruct Ha as [->| ->]. }
  unfold gate. destruct (negb (partial_received s)).
  - destruct (negb (is_action msg "partial")); [apply grows_refl|].
    rewrite emit_fst.
    apply (grows_trans _ (Session (pairs s) true (l2_book s) (order_id s)));
      [done|apply grows_for_each_insert].
  - rewrite emit_fst. apply grows_for_each_insert.
Qed.

Lemma partial_never_removes_witness :
  is_Some (level (_book eth_partial 2%float xbt_session).1
                 "XBTUSD" BID (dec 100)).
Proof.
  apply (partial_never_removes eth_partial 2%float xbt_session).
  - by left.
  - vm_compute. eauto.
Defined.
End BitmexMore.

(** * Properties of construction and subscription *)

Module LifecycleSpec.
Import Defines Bitmex BookNotions MoreNotions Scenario MoreScenario.
Import TradingOptions BitmexLifecycle BitmexSpec BitmexMore.

Lemma check_active_None active ps :
  check_active active ps = None ↔ Forall (acceptable active) ps.
Proof.
  induction ps as [|p ps IH]; simpl.
  { split; [intros _; apply Forall_nil_2|done]. }
  rewrite Forall_cons, <- IH. unfold acceptable.
  destruct (startswith_dot p); simpl.
  { split; [auto|by intros [_ ?]]. }
  case_bool_decide as Hact; simpl.
  - split; [auto|by intros [_ ?]].
  - split; [done|]. by intros [[?|?] _].
Qed.

Lemma check_active_Some active ps e :
  check_active active ps = Some e →
  ∃ p, p ∈ ps ∧ startswith_dot p = false ∧ (p ∉ active) ∧
       e = ValueError (p ++ " is not active on BitMEX").
Proof.
  induction ps as [|p ps IH]; simpl; [done|].
  destruct (startswith_dot p) eqn:Hdot; simpl.
  - intros (q & ? & ?)%IH. exists q. split; [|done].
    apply elem_of_cons. by right.
  - case_bool_decide as Hact; simpl.
    + intros (q & ? & ?)%IH. exists q. split; [|done].
      apply elem_of_cons. by right.
    + intros [= <-]. exists p. repeat split; [|done..].
      apply elem_of_cons. by left.
Qed.

Lemma init_returns active f f' :
  __init__ active f = Returns f' →
  channels f' = channels f ∧ config f' = config f ∧
  pairs (state f') = effective_pairs f.
Proof.
  unfold __init__.
  replace (match config f with
           | [] => pairs (state f)
           | _ :: _ => config_pairs (config f)
           end) with (effective_pairs f)
    by (unfold effective_pairs; by destruct (config f)).
  destruct (check_active active (effective_pairs f)); [done|].
  intros [= <-]. simpl. repeat split. apply reset_pairs.
Qed.

(** X11. [__init__] succeeds exactly when every pair of the feed (the
    pairs of the config when one is given) is active on the exchange or
    starts with a dot; the feed it returns has those pairs and a reset
    session.  When it raises, the [ValueError] names a pair of the feed
    that has no leading dot and is not active. *)
Theorem init_validates_pairs :
  ∀ (active_pairs : list string) (f : feed),
    (Forall (acceptable active_pairs) (effective_pairs f) ↔
       ∃ f', __init__ active_pairs f = Returns f') ∧
    (∀ f', __init__ active_pairs f = Returns f' →
           channels f' = channels f ∧ config f' = config f ∧
           pairs (state f') = effective_pairs f ∧
           partial_received (state f') = false ∧
           ∀ p, p ∈ effective_pairs f →
                l2_book (state f') !! p = Some (Sides ∅ ∅) ∧
                order_id (state f') !! p = Some (Sides ∅ ∅)) ∧
    (∀ e, __init__ active_pairs f = Raises e →
          ∃ p, p ∈ effective_pairs f ∧ startswith_dot p = false ∧
               (p ∉ active_pairs) ∧
               e = ValueError (p ++ " is not active on BitMEX")).
Proof.
  intros active f. unfold __init__.
  replace (match config f with
           | [] => pairs (state f)
           | _ :: _ => config_pairs (config f)
           end) with (effective_pairs f)
    by (unfold effective_pairs; by destruct (config f)).
  destruct (check_active active (effective_pairs f)) as [e|] eqn:Hchk.
  - split; [|split].
    + rewrite <- check_active_None, Hchk. split; [done|]. by intros [? ?].
    + done.
    + intros e' [= <-]. by apply check_active_Some.
  - split; [|split].
    + rewrite <- check_active_None. split; [eauto|done].
    + intros f' [= <-]. simpl.
      set (st := Session (effective_pairs f) _ _ _).
      repeat split; [apply (reset_pairs st)|apply reset_partial_received|..];
        by apply (reset_subscribed st p).
    + done.
Qed.

Lemma init_validates_pairs_witness :
  ∃ f', __init__ ["XBTUSD"; "ETHUSD"] plain_feed = Returns f'.
Proof.
  apply (init_validates_pairs ["XBTUSD"; "ETHUSD"] plain_feed).
  repeat apply Forall_cons_2; [| |apply Forall_nil_2].
  - right. apply elem_of_cons. by left.
  - by left.
Defined.

Lemma length_bind_const {A B} (f : A → list B) (l : list A) (n : nat) :
  (∀ a, length (f a) = n) → length (l ≫= f) = (length l * n)%nat.
Proof.
  intros Hf. induction l as [|a l IH]; [done|].
  rewrite bind_cons, length_app, IH, Hf. simpl. lia.
Qed.

Lemma length_bind_singleton {A B} (f : A → B) (l : list A) :
  length (l ≫= λ a, [f a]) = length l.
Proof.
  induction l as [|a l IH]; [done|].
  rewrite bind_cons, length_app, IH. done.
Qed.

Lemma length_config_tokens (cfg : list (string * list string)) :
  length ('(channel, ps) ← cfg; p ← ps; [token channel p]) =
    length (config_pairs cfg).
Proof.
  unfold config_pairs. induction cfg as [|[c ps] cfg IH]; [done|].
  rewrite bind_cons, length_app, IH. simpl.
  by rewrite length_app, length_bind_singleton.
Qed.

(** X12. [subscribe] resets the session and keeps the pairs, and the
    request it sends holds one token per channel and pair: with no config
    as many tokens as channels times pairs, with a config as many as the
    config lists pairs. *)
Theorem subscribe_resets_and_counts :
  ∀ f : feed,
    state (subscribe f).1 = _reset (state f) ∧
    pairs (state (subscribe f).1) = pairs (state f) ∧
    length (subscribe f).2 =
      match config f with
      | [] => (length (channels f) * length (pairs (state f)))%nat
      | cfg => length (config_pairs cfg)
      end.
Proof.
  intros f. unfold subscribe. cbn [fst snd state].
  split; [done|]. split; [apply reset_pairs|].
  unfold subscribe_args. cbn [config channels state].
  destruct (config f) as [|c cfg] eqn:Hcfg.
  - rewrite reset_pairs. apply length_bind_const.
    intros c. apply length_bind_singleton.
  - apply length_config_tokens.
Qed.

Lemma tokens_of_config (cfg : list (string * list string)) t :
  t ∈ ('(channel, ps) ← cfg; p ← ps; [token channel p]) ↔
  ∃ channel ps p, (channel, ps) ∈ cfg ∧ p ∈ ps ∧ t = token channel p.
Proof.
  rewrite list_elem_of_bind. split.
  - intros ([c ps] & Ht & Hc). apply list_elem_of_bind in Ht as (p & Ht & Hp).
    apply list_elem_of_singleton in Ht. eauto 10.
  - intros (c & ps & p & Hc & Hp & ->). exists (c, ps). split; [|done].
    apply list_elem_of_bind. exists p. split; [|done].
    by apply list_elem_of_singleton.
Qed.

Lemma elem_of_config_pairs (cfg : list (string * list string)) p :
  p ∈ config_pairs cfg ↔ ∃ channel ps, (channel, ps) ∈ cfg ∧ p ∈ ps.
Proof.
  unfold config_pairs. induction cfg as [|[c ps] cfg IH]; simpl.
  { split; [by intros ?%elem_of_nil|]. by intros (? & ? & ?%elem_of_nil & _). }
  rewrite elem_of_app, IH. split.
  - intros [Hp|(c' & ps' & Hc & Hp)].
    + exists c, ps. split; [|done]. apply elem_of_cons. by left.
    + exists c', ps'. split; [|done]. apply elem_of_cons. by right.
  - intros (c' & ps' & [[= -> ->]|Hc]%elem_of_cons & Hp); [by left|].
    right. eauto.
Qed.

(** X13. After a successful [__init__], the tokens that [subscribe] sends
    and the books of the engine agree: every token is [channel:pair] for a
    pair that has an empty book and an empty index after the reset, and
    (when a config or at least one channel is given) every pair of the
    feed is subscribed on some channel. *)
Theorem subscribe_matches_books :
  ∀ (active_pairs : list string) (f f' : feed),
    __init__ active_pairs f = Returns f' →
    (∀ t, t ∈ (subscribe f').2 →
          ∃ channel p,
            t = token channel p ∧
            l2_book (state (subscribe f').1) !! p = Some (Sides ∅ ∅) ∧
            order_id (state (subscribe f').1) !! p = Some (Sides ∅ ∅)) ∧
    (config f ≠ [] ∨ channels f ≠ [] →
     ∀ p, p ∈ pairs (state f') →
          ∃ channel, token channel p ∈ (subscribe f').2).
Proof.
  intros active f f' Hinit.
  destruct (init_returns active f f' Hinit) as (Hch & Hcfg & Hps).
  assert (∀ p, p ∈ pairs (state f') →
               l2_book (_reset (state f')) !! p = Some (Sides ∅ ∅) ∧
               order_id (_reset (state f')) !! p = Some (Sides ∅ ∅)) as Hbooks.
  { intros p Hp. by apply reset_subscribed. }
  unfold subscribe, subscribe_args. cbn [fst snd state config channels].
  rewrite reset_pairs, Hcfg, Hch.
  rewrite Hps in *. unfold effective_pairs in *.
  destruct (config f) as [|c cfg] eqn:Hc.
  - split.
    + intros t (ch & Ht & Hch')%list_elem_of_bind.
      apply list_elem_of_bind in Ht as (p & Ht & Hp).
      apply list_elem_of_singleton in Ht. exists ch, p. split; [done|].
      by apply Hbooks.
    + intros [?|Hne] p Hp; [done|].
      destruct (channels f) as [|ch chs]; [done|]. exists ch.
      apply list_elem_of_bind. exists ch. split; [|apply elem_of_cons; by left].
      apply list_elem_of_bind. exists p. split; [|done].
      by apply list_elem_of_singleton.
  - split.
    + intros t (ch & ps & p & Hin & Hp & ->)%tokens_of_config.
      exists ch, p. split; [done|]. apply Hbooks.
      apply elem_of_config_pairs. eauto.
    + intros _ p (ch & ps & Hin & Hp)%elem_of_config_pairs. exists ch.
      apply tokens_of_config. eauto 10.
Qed.

Lemma subscribe_matches_books_witness :
  ∃ channel, token channel "ETHUSD" ∈
    (subscribe (Feed [] (config configured_feed)
                     (_reset (Session ["XBTUSD"; "ETHUSD"; "XBTUSD"]
                                      false ∅ ∅)))).2.
Proof.
  apply (subscribe_matches_books ["XBTUSD"; "ETHUSD"] configured_feed).
  - vm_compute. reflexivity.
  - by left.
  - simpl. apply elem_of_cons. right. apply elem_of_cons. by left.
Defined.
End LifecycleSpec.

(** * Further properties of the normalisation registry *)

Module StandardsMore.
Import Defines Standards RegistryNotions BookNotions MoreNotions Scenario.
Import TradingOptions StandardsSpec.

(** ** Trading options *)

Ltac table_cases H :=
  apply elem_of_list_to_map_2 in H;
  repeat (apply elem_of_cons in H as [H|H]);
  [..|by apply elem_of_nil in H].

(** X14. [normalize_trading_options] returns a value exactly when the
    table has an entry for the option and the exchange and that entry is
    not the [UNSUPPORTED] sentinel (every other call raises
    [UnsupportedTradingOption]); so it never returns the sentinel, and
    only KRAKEN, GEMINI, POLONIEX and COINBASE ever get a value. *)
Theorem trading_option_never_unsupported :
  ∀ (exchange option : string) (v : option_value),
    (normalize_trading_options exchange option = Returns v ↔
       ∃ per_exchange,
         _exchange_options !! option = Some per_exchange ∧
         per_exchange !! exchange = Some v ∧
         v ≠ OStr UNSUPPORTED) ∧
    (normalize_trading_options exchange option = Returns v →
       exchange ∈ [KRAKEN; GEMINI; POLONIEX; COINBASE]).
Proof.
  intros exchange option v.
  assert (normalize_trading_options exchange option = Returns v ↔
          ∃ per_exchange,
            _exchange_options !! option = Some per_exchange ∧
            per_exchange !! exchange = Some v ∧
            v ≠ OStr UNSUPPORTED) as Hiff.
  { unfold normalize_trading_options. split.
    - destruct (_exchange_options !! option) as [per|]; [|done].
      destruct (per !! exchange) as [ret|] eqn:Hret; [|done].
      destruct ret as [str|items]; simpl.
      + case_bool_decide as Hs; [done|]. intros [= <-].
        exists per. split; [done|]. split; [done|]. by intros [= ->].
      + intros [= <-]. by exists per.
    - intros (per & -> & -> & Hv). destruct v as [str|items]; simpl; [|done].
      rewrite bool_decide_eq_false_2; [done|]. by intros ->. }
  split; [exact Hiff|].
  intros (per & Hopt & Hex & _)%Hiff. unfold _exchange_options in Hopt.
  table_cases Hopt; injection Hopt as -> ->;
    (repeat (apply lookup_insert_Some in Hex as [[<- _]|[_ Hex]]);
     [..|by rewrite lookup_empty in Hex]);
    repeat first [apply list_elem_of_here | apply list_elem_of_further].
Qed.

Lemma trading_option_never_unsupported_witness :
  KRAKEN ∈ [KRAKEN; GEMINI; POLONIEX; COINBASE].
Proof.
  apply (trading_option_never_unsupported KRAKEN MAKER_OR_CANCEL (OStr "post")).
  vm_compute. reflexivity.
Defined.

(** ** Channels *)

Lemma pair_std_to_exchange_raises r pair exchange e :
  pair_std_to_exchange r pair exchange = Raise e →
  e = UnsupportedTradingPair (not_supported pair exchange) ∧
  in_set exchange dynamic_exchanges = false ∧
  forward r pair exchange = None.
Proof.
  unfold pair_std_to_exchange, forward.
  destruct (in_set exchange dynamic_exchanges); [done|].
  destruct (_std_trading_pairs r !! pair) as [per|]; simpl.
  - destruct (per !! exchange); [done|]. by intros [= <-].
  - destruct (_ && _); [done|]. by intros [= <-].
Qed.

(** X15. [feed_to_exchange] logs an error record exactly when it raises
    [UnsupportedDataFeed], and then logs exactly one; a value it returns
    from the channel table is never the [UNSUPPORTED] sentinel. *)
Theorem feed_to_exchange_logs_iff_unsupported :
  ∀ (r : registry) (exchange feed : string)
    (log : list log_record) (res : result native),
    feed_to_exchange r exchange feed = (log, res) →
    (log = [] ∨ log = [LogError (not_supported feed exchange)]) ∧
    (log ≠ [] ↔
       res = Raise (UnsupportedDataFeed (not_supported feed exchange))) ∧
    (∀ v, res = Ok v → is_Some (_feed_to_exchange_map !! feed) →
          v ≠ NStr UNSUPPORTED).
Proof.
  intros r exchange feed log res. unfold feed_to_exchange.
  destruct (bool_decide (exchange = POLONIEX) &&
            negb (bool_decide (is_Some (_feed_to_exchange_map !! feed))))
    eqn:Hfallback.
  - apply andb_true_iff in Hfallback as [_ Hnot].
    apply negb_true_iff, bool_decide_eq_false in Hnot.
    destruct (pair_std_to_exchange r feed POLONIEX) as [exch|e] eqn:Hp;
      intros [= <- <-]; (split; [by left|]); (split; [|done]).
    + split; [done|]. by intros [=].
    + split; [done|]. intros [= ->].
      by apply pair_std_to_exchange_raises in Hp as [[=] _].
  - clear Hfallback. unfold getitem.
    destruct (_feed_to_exchange_map !! feed) as [per|];
      [|intros [= <- <-]; split; [by left|]; split; [|done];
        split; [done|]; by intros [=]].
    destruct (per !! exchange) as [ret|];
      [|intros [= <- <-]; split; [by left|]; split; [|done];
        split; [done|]; by intros [=]].
    destruct (is_unsupported ret) eqn:Hu; intros [= <- <-].
    + split; [by right|]. split; [done|]. by intros v [=].
    + split; [by left|]. split; [split; [done|]; by intros [=]|].
      intros v [= <-] _ ->. vm_compute in Hu. discriminate Hu.
Qed.

Lemma feed_to_exchange_logs_iff_unsupported_witness :
  (([] : list log_record) ≠ [] ↔
   (Ok (NStr "orderBookL2") : result native) =
     Raise (UnsupportedDataFeed (not_supported L2_BOOK BITMEX))).
Proof.
  apply (feed_to_exchange_logs_iff_unsupported initial BITMEX L2_BOOK).
  vm_compute. reflexivity.
Defined.

(** X16. Outside the POLONIEX fallback, a feed that is not a key of the
    channel table, or an exchange that has no entry under the feed, makes
    [feed_to_exchange] raise [KeyError] (not [UnsupportedDataFeed]) with
    nothing logged. *)
Theorem feed_to_exchange_missing_key :
  ∀ (r : registry) (exchange feed : string),
    (exchange ≠ POLONIEX ∧ _feed_to_exchange_map !! feed = None) ∨
    (∃ per_exchange,
       _feed_to_exchange_map !! feed = Some per_exchange ∧
       per_exchange !! exchange = None) →
    feed_to_exchange r exchange feed = ([], Raise KeyError).
Proof.
  intros r exchange feed [[Hex Hfeed]|(per & Hfeed & Hentry)];
    unfold feed_to_exchange, getitem.
  - rewrite (bool_decide_eq_false_2 (exchange = POLONIEX)) by done.
    simpl. by rewrite Hfeed.
  - rewrite (bool_decide_eq_true_2 (is_Some _)) by (rewrite Hfeed; eauto).
    rewrite andb_false_r. by rewrite Hfeed, Hentry.
Qed.

Lemma feed_to_exchange_missing_key_witness :
  feed_to_exchange initial BITMEX VOLUME = ([], Raise KeyError) ∧
  feed_to_exchange initial BITMEX "BTC-USD" = ([], Raise KeyError).
Proof.
  split.
  - apply (feed_to_exchange_missing_key initial BITMEX VOLUME).
    right. eexists. split; vm_compute; reflexivity.
  - apply (feed_to_exchange_missing_key initial BITMEX "BTC-USD").
    left. split; [discriminate|]. vm_compute. reflexivity.
Defined.

(** ** Pairs *)

(** X17. [pair_std_to_exchange] raises nothing but [UnsupportedTradingPair]
    (the inner [KeyError] never escapes), only for an exchange that is not
    dynamic and a pair that is not registered for it, and the message names
    the pair and the exchange; for BITMEX, DERIBIT and KRAKEN_FUTURES it
    always returns the pair unchanged. *)
Theorem pair_std_to_exchange_errors :
  ∀ (r : registry) (pair exchange : string),
    (∀ e, pair_std_to_exchange r pair exchange = Raise e →
          e = UnsupportedTradingPair (not_supported pair exchange) ∧
          (exchange ∉ dynamic_exchanges) ∧
          forward r pair exchange = None) ∧
    (exchange ∈ dynamic_exchanges →
       pair_std_to_exchange r pair exchange = Ok pair).
Proof.
  intros r pair exchange. split.
  - intros e (-> & Hdyn & Hfwd)%pair_std_to_exchange_raises.
    repeat split; [|done]. by apply bool_decide_eq_false in Hdyn.
  - intros Hdyn. unfold pair_std_to_exchange, in_set.
    by rewrite bool_decide_eq_true_2.
Qed.

Lemma pair_std_to_exchange_errors_witness :
  pair_std_to_exchange initial "XBTUSD" BITMEX = Ok "XBTUSD".
Proof.
  apply (pair_std_to_exchange_errors initial "XBTUSD" BITMEX).
  apply elem_of_cons. by left.
Defined.

(** X18. [pair_exchange_to_std] raises in exactly one case: the empty
    string when it is not a key of the reverse table, with [IndexError].
    On every other input it returns. *)
Theorem pair_exchange_to_std_raises_iff :
  ∀ (r : registry) (pair : string) (e : exn),
    pair_exchange_to_std r pair = Raise e ↔
    pair = "" ∧ _exchange_to_std r !! "" = None ∧ e = IndexError.
Proof.
  intros r pair e. unfold pair_exchange_to_std. split.
  - destruct (_exchange_to_std r !! pair) eqn:Hl; [done|].
    destruct pair as [|c rest]; [by intros [= <-]|].
    by destruct (Ascii.eqb c "f").
  - by intros (-> & -> & ->).
Qed.

(** X19. The BITFINEX funding spelling is a round trip: a pair with no
    dash that is not a key of the forward table goes to BITFINEX as the
    pair prefixed with [f], and that spelling, unless the reverse table
    maps it, comes back as the pair. *)
Theorem funding_round_trip :
  ∀ (r : registry) (pair : string),
    _std_trading_pairs r !! pair = None →
    has_char "-" pair = false →
    _exchange_to_std r !! ("f" ++ pair) = None →
    pair_std_to_exchange r pair BITFINEX = Ok ("f" ++ pair) ∧
    pair_exchange_to_std r ("f" ++ pair) = Ok (Some pair).
Proof.
  intros r pair Hfwd Hdash Hrev. split.
  - unfold pair_std_to_exchange.
    change (in_set BITFINEX dynamic_exchanges) with false. cbv iota.
    rewrite Hfwd, Hdash. by rewrite bool_decide_eq_true_2.
  - unfold pair_exchange_to_std. by rewrite Hrev.
Qed.

Lemma funding_round_trip_witness :
  pair_std_to_exchange initial "USD" BITFINEX = Ok "fUSD" ∧
  pair_exchange_to_std initial "fUSD" = Ok (Some "USD").
Proof.
  apply (funding_round_trip initial "USD"); reflexivity.
Defined.

(** ** Loading *)

Lemma forward_load_item exchange r std exch pair ex :
  forward (load_item exchange r (std, exch)) pair ex =
    if decide (std = pair ∧ exchange = ex) then Some exch
    else forward r pair ex.
Proof.
  unfold forward, load_item.
  destruct (decide (std = pair)) as [->|Hs].
  - destruct (_std_trading_pairs r !! pair) as [per|] eqn:Hstd; simpl;
      rewrite lookup_insert_eq; simpl.
    + destruct (decide (exchange = ex)) as [->|He].
      * rewrite lookup_insert_eq. by rewrite decide_True.
      * rewrite lookup_insert_ne by done.
        by rewrite decide_False by (by intros [_ ?]).
    + destruct (decide (exchange = ex)) as [->|He].
      * rewrite lookup_singleton_eq. by rewrite decide_True.
      * rewrite lookup_singleton_ne by done.
        by rewrite decide_False by (by intros [_ ?]).
  - rewrite decide_False by (by intros [? _]).
    destruct (_std_trading_pairs r !! std); simpl;
      by rewrite lookup_insert_ne.
Qed.

Lemma reverse_load_item exchange r std exch :
  _exchange_to_std (load_item exchange r (std, exch)) =
    <[exch := std]> (_exchange_to_std r).
Proof. unfold load_item. by destruct (_std_trading_pairs r !! std). Qed.

Lemma forward_load_items_other exchange items r pair ex :
  pair ∉ items.*1 ∨ exchange ≠ ex →
  forward (foldl (load_item exchange) r items) pair ex = forward r pair ex.
Proof.
  revert r. induction items as [|[std exch] items IH]; intros r Hno; [done|].
  cbn [foldl]. rewrite IH, forward_load_item.
  - rewrite decide_False; [done|]. intros [-> ->].
    destruct Hno as [Hno|?]; [|done]. apply Hno. simpl.
    apply elem_of_cons. by left.
  - destruct Hno as [Hno|?]; [left|by right]. intros Hin. apply Hno. simpl.
    apply elem_of_cons. by right.
Qed.

Lemma forward_load_items exchange items r std exch :
  NoDup items.*1 → (std, exch) ∈ items →
  forward (foldl (load_item exchange) r items) std exchange = Some exch.
Proof.
  revert r. induction items as [|[std0 exch0] items IH]; intros r Hnd Hin.
  { by apply elem_of_nil in Hin. }
  rewrite fmap_cons in Hnd. apply NoDup_cons in Hnd as [Hfresh Hnd].
  cbn [foldl fst] in *.
  apply elem_of_cons in Hin as [[= -> ->]|Hin].
  - rewrite forward_load_items_other by (by left).
    rewrite forward_load_item. by rewrite decide_True.
  - by apply IH.
Qed.

Lemma reverse_load_items_other exchange items r exch :
  exch ∉ items.*2 →
  _exchange_to_std (foldl (load_item exchange) r items) !! exch =
    _exchange_to_std r !! exch.
Proof.
  revert r. induction items as [|[std0 exch0] items IH]; intros r Hno; [done|].
  rewrite fmap_cons in Hno. apply not_elem_of_cons in Hno as [Hne Hno].
  cbn [foldl snd] in *.
  rewrite IH by done. rewrite reverse_load_item.
  by rewrite lookup_insert_ne.
Qed.

Lemma reverse_load_items exchange items r std exch :
  NoDup items.*2 → (std, exch) ∈ items →
  _exchange_to_std (foldl (load_item exchange) r items) !! exch = Some std.
Proof.
  revert r. induction items as [|[std0 exch0] items IH]; intros r Hnd Hin.
  { by apply elem_of_nil in Hin. }
  rewrite fmap_cons in Hnd. apply NoDup_cons in Hnd as [Hfresh Hnd].
  cbn [foldl snd] in *.
  apply elem_of_cons in Hin as [[= -> ->]|Hin].
  - rewrite reverse_load_items_other by done.
    rewrite reverse_load_item. by rewrite lookup_insert_eq.
  - by apply IH.
Qed.

Lemma pair_std_to_exchange_forward r pair exchange exch :
  in_set exchange dynamic_exchanges = false →
  forward r pair exchange = Some exch →
  pair_std_to_exchange r pair exchange = Ok exch.
Proof.
  unfold pair_std_to_exchange, forward. intros -> Hf.
  destruct (_std_trading_pairs r !! pair) as [per|]; [|done].
  simpl in Hf. by rewrite Hf.
Qed.

(** X20. Right after the mapping of a static exchange is loaded, into
    whatever registry, every pair of the mapping translates to its native
    spelling on that exchange; and when the mapping spells no two pairs
    alike, every native spelling translates back to its pair.  (The items
    of a dict have distinct keys.) *)
Theorem load_then_translate :
  ∀ (gen_pairs : string → list (string * string)) (exchange : string)
    (r : registry) (std exch : string),
    exchange ∉ dynamic_exchanges →
    NoDup (gen_pairs exchange).*1 →
    (std, exch) ∈ gen_pairs exchange →
    pair_std_to_exchange
      (load_exchange_pair_mapping gen_pairs exchange r) std exchange =
      Ok exch ∧
    (NoDup (gen_pairs exchange).*2 →
     pair_exchange_to_std
       (load_exchange_pair_mapping gen_pairs exchange r) exch =
       Ok (Some std)).
Proof.
  intros gen_pairs exchange r std exch Hstatic Hkeys Hin.
  assert (in_set exchange dynamic_exchanges = false) as Hs.
  { by apply bool_decide_eq_false. }
  unfold load_exchange_pair_mapping. rewrite Hs. split.
  - apply pair_std_to_exchange_forward; [done|].
    by apply forward_load_items.
  - intros Hnat. unfold pair_exchange_to_std.
    by rewrite (reverse_load_items _ _ _ std exch Hnat Hin).
Qed.

Lemma load_then_translate_witness :
  pair_std_to_exchange
    (load_exchange_pair_mapping distinct_pairs GEMINI
       (load_all clashing_pairs [GEMINI; HITBTC])) "ETH-USD" GEMINI =
    Ok "ETHUSD".
Proof.
  apply (load_then_translate distinct_pairs GEMINI
           (load_all clashing_pairs [GEMINI; HITBTC]) "ETH-USD" "ETHUSD").
  - intros Hin. vm_compute in Hin.
    repeat (apply elem_of_cons in Hin as [Hin|Hin]; [discriminate Hin|]).
    by apply elem_of_nil in Hin.
  - vm_compute. repeat constructor; intros Hin;
      repeat (apply elem_of_cons in Hin as [Hin|Hin]; [discriminate Hin|]);
      by apply elem_of_nil in Hin.
  - vm_compute. apply elem_of_cons. right. apply elem_of_cons. by left.
Defined.

Lemma forward_load_other gen_pairs exchange r pair ex :
  exchange ≠ ex →
  forward (load_exchange_pair_mapping gen_pairs exchange r) pair ex =
    forward r pair ex.
Proof.
  intros Hne. unfold load_exchange_pair_mapping.
  destruct (in_set exchange dynamic_exchanges); [done|].
  apply forward_load_items_other. by right.
Qed.

Lemma forward_load_many gen_pairs exchanges r pair ex :
  ex ∉ exchanges →
  forward (foldl (λ r exchange,
                    load_exchange_pair_mapping gen_pairs exchange r)
                 r exchanges) pair ex =
    forward r pair ex.
Proof.
  revert r. induction exchanges as [|e exs IH]; intros r Hno; [done|].
  apply not_elem_of_cons in Hno as [Hne Hno]. simpl.
  rewrite IH by done. apply forward_load_other. congruence.
Qed.

(** X21. Loading the mappings of other exchanges never changes what a
    registered pair translates to on an exchange: the forward table is
    keyed by pair and exchange.  (The reverse table is shared, which is
    why the way back can change.) *)
Theorem forward_translation_is_stable :
  ∀ (gen_pairs : string → list (string * string))
    (exchanges : list string) (r : registry) (pair ex : string),
    ex ∉ exchanges →
    is_Some (forward r pair ex) →
    pair_std_to_exchange
      (foldl (λ r exchange, load_exchange_pair_mapping gen_pairs exchange r)
             r exchanges) pair ex =
      pair_std_to_exchange r pair ex.
Proof.
  intros gen_pairs exchanges r pair ex Hno [exch Hfwd].
  destruct (in_set ex dynamic_exchanges) eqn:Hdyn.
  - unfold pair_std_to_exchange. by rewrite Hdyn.
  - rewrite !(pair_std_to_exchange_forward _ _ _ exch); [done..|].
    by rewrite forward_load_many.
Qed.

Lemma forward_translation_is_stable_witness :
  pair_std_to_exchange
    (foldl (λ r exchange, load_exchange_pair_mapping clashing_pairs exchange r)
           (load_all clashing_pairs [GEMINI]) [HITBTC]) "BTC-USD" GEMINI =
    pair_std_to_exchange (load_all clashing_pairs [GEMINI]) "BTC-USD" GEMINI.
Proof.
  apply (forward_translation_is_stable clashing_pairs [HITBTC]
           (load_all clashing_pairs [GEMINI]) "BTC-USD" GEMINI).
  - intros Hin. apply list_elem_of_singleton in Hin. discriminate Hin.
  - vm_compute. eauto.
Defined.

(** X22. Loading never registers a pair for a dynamic exchange: whatever
    exchanges are loaded, the forward table holds no entry for BITMEX,
    DERIBIT or KRAKEN_FUTURES. *)
Theorem dynamic_exchanges_never_registered :
  ∀ (gen_pairs : string → list (string * string))
    (exchanges : list string) (pair ex : string),
    ex ∈ dynamic_exchanges →
    forward (load_all gen_pairs exchanges) pair ex = None.
Proof.
  intros gen_pairs exchanges pair ex Hdyn. unfold load_all.
  assert (forward initial pair ex = None) as Hinit by done.
  revert Hinit. generalize initial.
  induction exchanges as [|e exs IH]; intros r Hr; [done|].
  simpl. apply IH. unfold load_exchange_pair_mapping.
  destruct (in_set e dynamic_exchanges) eqn:He; [done|].
  rewrite forward_load_items_other; [done|]. right. intros ->.
  apply bool_decide_eq_false in He. done.
Qed.

Lemma dynamic_exchanges_never_registered_witness :
  forward (load_all clashing_pairs [BITMEX; GEMINI]) "BTC-USD" BITMEX = None.
Proof.
  apply (dynamic_exchanges_never_registered clashing_pairs
           [BITMEX; GEMINI] "BTC-USD" BITMEX).
  apply elem_of_cons. by left.
Defined.

(** ** Timestamps *)

(** X23. For the millisecond and microsecond exchanges
    [timestamp_normalize] divides by a float: an int or a float gives a
    float (or [OverflowError] for an int beyond the doubles), and a
    [Decimal] or a string raises [TypeError].  The pandas parser is not
    consulted. *)
Theorem timestamp_normalize_unit_types :
  ∀ (pd_timestamp : ts_value → result ts_value)
    (exchange : string) (ts : ts_value),
    exchange ∈ (millis_exchanges ++ micros_exchanges)%list →
    match ts with
    | TsInt _ | TsFloat _ =>
        (∃ f, timestamp_normalize pd_timestamp exchange ts = Ok (TsFloat f)) ∨
        timestamp_normalize pd_timestamp exchange ts = Raise OverflowError
    | TsDecimal _ | TsStr _ =>
        timestamp_normalize pd_timestamp exchange ts = Raise TypeError
    end.
Proof.
  intros pd exchange ts Hin.
  assert (∃ d, timestamp_normalize pd exchange ts = truediv_float ts d)
    as [d ->].
  { vm_compute in Hin.
    repeat (apply elem_of_cons in Hin as [->|Hin]);
      [..|by apply elem_of_nil in Hin]; eexists; reflexivity. }
  destruct ts as [n|f| |]; simpl; [|eauto|done..].
  unfold float_of_int.
  destruct (binary_normalize prec emax n 0 false); eauto.
Qed.

Lemma timestamp_normalize_unit_types_witness :
  timestamp_normalize no_pandas BITSTAMP (TsDecimal (dec 5)) = Raise TypeError.
Proof.
  apply (timestamp_normalize_unit_types no_pandas BITSTAMP (TsDecimal (dec 5))).
  apply elem_of_app. right. by apply list_elem_of_singleton.
Defined.
End StandardsMore.
